(** * ecs-exec-cli: the selection workflow of [src/index.ts]

    A shallow embedding of the interactive helper that picks an ECS
    cluster, a running task and a container and then launches
    [aws ecs execute-command].

    The TypeScript program [src/index.ts] is the program modelled here.
    Its older JavaScript sibling [src/index.js] differs in a few guards;
    the functions where the difference is visible are embedded a second
    time in [Module IndexJs].

    JavaScript values are modelled as follows.
    - A string is a [string]; its characters are 8-bit code units, among
      which the line terminators are LF and CR (U+2028 and U+2029 lie
      outside this range).
    - An optional property or a possibly [undefined] value of type [T] is
      an [option T], with [None] for [undefined].
    - A promise is its settled outcome: [Resolved v] or [Rejected e];
      [await] is the bind of the monad [M] below.
    - Everything the program does not decide itself (what the operator
      answers, what AWS returns, what the download and the child process
      do) is read from a [World].
    - The state holds what the program itself reads and writes:
      [AWS.config.credentials], which only [mfaTokens] assigns, and the
      paths on disk, which only [download] and [rmdirSync] change; a
      child process leaves both alone.  Banner, colours and spinners are
      display only and are left out. *)

From Stdlib Require Import String Ascii List ZArith Bool Lia.
Import ListNotations.
Open Scope string_scope.

(** ** JavaScript helpers *)

Module Js.

(** [!!s] for a possibly absent string: [undefined] and the empty
    string are falsy. *)
Definition truthy (v : option string) : bool :=
  match v with
  | Some s => negb (s =? EmptyString)
  | None => false
  end.

(** [a || d] for a possibly absent string [a]. *)
Definition or_else (v : option string) (d : string) : string :=
  match v with
  | Some s => if s =? EmptyString then d else s
  | None => d
  end.

(** [!!b] for an optional boolean property. *)
Definition truthy_bool (v : option bool) : bool :=
  match v with
  | Some b => b
  | None => false
  end.

(** [const { x = d } = obj]: the default applies to [undefined] only. *)
Definition default_to {A : Type} (d : A) (v : option A) : A :=
  match v with
  | Some a => a
  | None => d
  end.

(** [xs.includes(x)] on an array of strings. *)
Definition includes (xs : list string) (x : string) : bool :=
  existsb (String.eqb x) xs.

(** [xs.indexOf(x)]: the first position holding [x], or [-1]. *)
Fixpoint indexOf (xs : list string) (x : string) : Z :=
  match xs with
  | [] => (-1)%Z
  | y :: ys =>
      if y =? x then 0%Z
      else let r := indexOf ys x in
           if (r <? 0)%Z then (-1)%Z else (r + 1)%Z
  end.

(** [xs[i]] for an integer [i]: [undefined] out of range. *)
Definition at_index {A : Type} (xs : list A) (i : Z) : option A :=
  if (i <? 0)%Z then None else nth_error xs (Z.to_nat i).

(** [xs.find(p)]: the first element satisfying [p]. *)
Definition find {A : Type} (p : A -> bool) (xs : list A) : option A :=
  List.find p xs.

(** The one-character string holding a double quote. *)
Definition dquote : string := String (Ascii.ascii_of_nat 34) EmptyString.

(** How a template literal renders a possibly absent string. *)
Definition render (v : option string) : string :=
  match v with
  | Some s => s
  | None => "undefined"
  end.

(** The dot of a regular expression matches every code unit except
    the line terminators. *)
Definition is_line_terminator (c : ascii) : bool :=
  (Ascii.eqb c "010"%char) || (Ascii.eqb c "013"%char).

(** [strip_prefix p s] is [Some r] when [s = p ++ r]. *)
Fixpoint strip_prefix (p s : string) : option string :=
  match p with
  | EmptyString => Some s
  | String a p' =>
      match s with
      | EmptyString => None
      | String b s' => if Ascii.eqb a b then strip_prefix p' s' else None
      end
  end.

(** The scan behind [s.replace(/^(.+)lit/, '')], from a position that
    has at least one character before it, all of them matched by the
    dot.  The group is greedy, so a later occurrence of [lit] wins
    over an earlier one; what is returned is the text after the chosen
    occurrence. *)
Fixpoint after_last (lit s : string) : option string :=
  match s with
  | EmptyString => None
  | String c s' =>
      match (if is_line_terminator c then None else after_last lit s') with
      | Some r => Some r
      | None => strip_prefix lit s
      end
  end.

(** [s.replace(/^(.+)lit/, '')] for a literal [lit] free of line
    terminators: without a match the string is returned as it is. *)
Definition replace_through (lit s : string) : string :=
  match s with
  | EmptyString => s
  | String c s' =>
      if is_line_terminator c then s
      else match after_last lit s' with
           | Some r => r
           | None => s
           end
  end.

End Js.

(** ** Data model (the parts of the AWS SDK shapes the program reads) *)

Record ManagedAgent := {
  agent_name : option string        (* ManagedAgent.name *)
}.

Record Container := {
  name : option string;
  managedAgents : option (list ManagedAgent)
}.

Record Task := {
  taskArn : option string;
  taskDefinitionArn : option string;
  launchType : option string;
  enableExecuteCommand : option bool;
  containers : option (list Container)
}.

Record MFADevice := {
  SerialNumber : string
}.

(** [Credentials] of an STS response. *)
Record StsCredentials := {
  AccessKeyId : string;
  SecretAccessKey : string
}.

(** The value held by [AWS.config.credentials]. *)
Record Credentials := {
  accessKeyId : string;
  secretAccessKey : string
}.

(** ** Pure functions of [src/index.ts] *)

Definition taskDefFriendlyName (taskDefinitionArn : string) : string :=
  Js.replace_through "task-definition/" taskDefinitionArn.

Definition clusterFriendlyName (clusterArn : string) : string :=
  Js.replace_through "cluster/" clusterArn.

(** The callback given to [filter] in [findExecuteCommandContainer]:
    [c.managedAgents && c.managedAgents.find(m => m.name === "ExecuteCommandAgent")],
    read for its truthiness.  An array is truthy even when empty, and
    what [find] returns is an object or [undefined]. *)
Definition isExecuteCommandAgent (m : ManagedAgent) : bool :=
  match agent_name m with
  | Some n => n =? "ExecuteCommandAgent"
  | None => false
  end.

Definition hasExecuteCommandAgent (c : Container) : bool :=
  match managedAgents c with
  | None => false
  | Some agents =>
      match Js.find isExecuteCommandAgent agents with
      | Some _ => true
      | None => false
      end
  end.

Definition findExecuteCommandContainer (task : Task) : list string :=
  match containers task with
  | None => []
  | Some cs =>
      map (fun c => Js.or_else (name c) "container")
          (filter hasExecuteCommandAgent cs)
  end.

(** The display string of a task in [askTasks], [undefined] when the
    task has no task-definition reference. *)
Definition taskChoice (t : Task) : option string :=
  match taskDefinitionArn t with
  | Some arn =>
      if arn =? EmptyString then None
      else Some (taskDefFriendlyName arn ++ " - (" ++ Js.render (launchType t) ++ ")")
  | None => None
  end.

(** [.filter((s) => !!s)] over the rendered choices. *)
Definition keepTruthy (xs : list (option string)) : list string :=
  flat_map (fun v => match v with
                     | Some s => if s =? EmptyString then [] else [s]
                     | None => []
                     end) xs.

Definition taskChoices (tasks : list Task) : list string :=
  keepTruthy (map taskChoice tasks).


(** ** Effects: exceptions, promises, the process state and its trace *)

(** A thrown value.  [Error] and [TypeError] answer [true] to
    [e instanceof Error]; [Thrown] is any other rejected value. *)
Inductive Exn :=
| Error (message : string)
| TypeError (message : string)
| Thrown (what : string).

Definition instanceofError (e : Exn) : option string :=
  match e with
  | Error m => Some m
  | TypeError m => Some m
  | Thrown _ => None
  end.

Inductive Outcome (A : Type) :=
| Resolved (v : A)
| Rejected (e : Exn).
Arguments Resolved {A} v.
Arguments Rejected {A} e.

Inductive AwsCall :=
| ListMFADevices
| GetSessionToken (DurationSeconds : Z) (serial : string) (TokenCode : string)
| ListClusters
| ListTasks (cluster : option string) (desiredStatus : string)
| DescribeTasks (cluster : option string) (tasks : list string).

(** What became of a spawned child: it ran and closed with an exit code
    and a signal, or it could not be started; then the child emits
    [error] with the error and, after it, [close] with a code and a
    signal of its own. *)
Inductive ChildOutcome :=
| Closed (code : option Z) (signal : option string)
| SpawnError (e : Exn) (code : option Z) (signal : option string).

(** What the program does to the outside, in the order it does it. *)
Inductive Event :=
| EvPrompt (question : string) (choices : list string)
| EvAws (call : AwsCall)
| EvDownload (url dest : string)
| EvChmod (path mode : string)
| EvRmdir (path : string)
| EvSpawn (cmd : string) (args : list (option string))
          (AWS_ACCESS_KEY_ID AWS_SECRET_ACCESS_KEY : string)
| EvConsoleError (what : ChildOutcome)   (* console.error of a handler *)
| EvLog (msg : string).

(** [AWS.config.credentials], the paths that exist on disk, and the
    trace so far. *)
Record State := {
  credentials : option Credentials;
  files : list string;
  trace : list Event
}.

(** What [download(url, dest)] did: it saved the body under [dest] with
    the file name it derived, or it failed, having created [dest]
    already or not. *)
Inductive DownloadOutcome :=
| Saved (filename : string)
| DownloadFailed (e : Exn) (createdDest : bool).

(** The collaborators.  The AWS calls see the credentials in force. *)
Record World := {
  argv_mfa : option bool;
  argv_cluster : option string;
  argv_test : option bool;
  prompt_input : string -> Outcome (option string);
  prompt_list : string -> list string -> Outcome string;
  iam_listMFADevices : option Credentials -> Outcome (list MFADevice);
  sts_getSessionToken :
    option Credentials -> Z -> string -> string -> Outcome (option StsCredentials);
  ecs_listClusters : option Credentials -> Outcome (option (list string));
  ecs_listTasks :
    option Credentials -> option string -> Outcome (option (list string));
  ecs_describeTasks :
    option Credentials -> option string -> list string -> Outcome (option (list Task));
  tempfile : string;
  download : string -> string -> DownloadOutcome;
  child_process : string -> list (option string) -> ChildOutcome
}.

(** An asynchronous computation: from a state to a settled outcome and
    the state it leaves. *)
Definition M (A : Type) : Type := State -> Outcome A * State.

Definition ret {A : Type} (a : A) : M A := fun st => (Resolved a, st).

Definition bind {A B : Type} (m : M A) (k : A -> M B) : M B :=
  fun st =>
    match m st with
    | (Resolved a, st') => k a st'
    | (Rejected e, st') => (Rejected e, st')
    end.

Definition throw {A : Type} (e : Exn) : M A := fun st => (Rejected e, st).

(** [try { body } catch (e) { handler }] *)
Definition try_catch {A : Type} (body : M A) (handler : Exn -> M A) : M A :=
  fun st =>
    match body st with
    | (Resolved a, st') => (Resolved a, st')
    | (Rejected e, st') => handler e st'
    end.

(** [try { body } finally { fin }]: [fin] runs on both exits; its own
    exception, if any, replaces the outcome of [body]. *)
Definition try_finally {A : Type} (body : M A) (fin : M unit) : M A :=
  fun st =>
    match body st with
    | (r, st') =>
        match fin st' with
        | (Resolved _, st'') => (r, st'')
        | (Rejected e, st'') => (Rejected e, st'')
        end
    end.

Declare Scope async_scope.
Delimit Scope async_scope with async.
Notation "x <- m ;; k" := (bind m (fun x => k))
  (at level 100, m at next level, right associativity) : async_scope.
Notation "m ;;; k" := (bind m (fun _ => k))
  (at level 100, right associativity) : async_scope.
Open Scope async_scope.

Definition emit (e : Event) : M unit :=
  fun st => (Resolved tt,
             {| credentials := credentials st;
                files := files st;
                trace := trace st ++ [e] |}).

Definition getCredentials : M (option Credentials) :=
  fun st => (Resolved (credentials st), st).

Definition setCredentials (c : option Credentials) : M unit :=
  fun st => (Resolved tt,
             {| credentials := c; files := files st; trace := trace st |}).

Definition setFiles (fs : list string) : M unit :=
  fun st => (Resolved tt,
             {| credentials := credentials st; files := fs; trace := trace st |}).

Definition getFiles : M (list string) :=
  fun st => (Resolved (files st), st).

(** Settle with what a collaborator answered. *)
Definition settle {A : Type} (o : Outcome A) : M A := fun st => (o, st).

(** [console.log(chalk.red(msg))] *)
Definition console_log (msg : string) : M unit := emit (EvLog msg).

(** *** The file system *)

(** [path.join(dir, file)] for a normalised [dir] without a trailing
    separator, as [tempfile()] returns it. *)
Definition path_join (dir file : string) : string := dir ++ "/" ++ file.

Definition existsIn (fs : list string) (p : string) : bool :=
  existsb (String.eqb p) fs.

(** [p] is [dir] itself or lies beneath it. *)
Definition within (dir p : string) : bool :=
  (p =? dir) || String.prefix (dir ++ "/") p.

Definition fs_existsSync (p : string) : M bool :=
  fs <- getFiles ;; ret (existsIn fs p).

(** [fs.chmodSync(p, mode)] throws when [p] does not exist. *)
Definition fs_chmodSync (p mode : string) : M unit :=
  fs <- getFiles ;;
  if existsIn fs p then emit (EvChmod p mode)
  else throw (Error ("ENOENT: no such file or directory, chmod '" ++ p ++ "'")).

(** [fs.rmdirSync(dir, { recursive: true })] *)
Definition fs_rmdirSync (dir : string) : M unit :=
  fs <- getFiles ;;
  setFiles (filter (fun p => negb (within dir p)) fs) ;;;
  emit (EvRmdir dir).

(** ** The program [src/index.ts] *)

Section Program.

Variable w : World.

(** [inquirer.prompt] with one question of type ["input"]. *)
Definition prompt_for_input (question : string) : M (option string) :=
  emit (EvPrompt question []) ;;;
  settle (prompt_input w question).

(** [inquirer.prompt] with one question of type ["search-list"]. *)
Definition prompt_for_choice (question : string) (choices : list string) : M string :=
  emit (EvPrompt question choices) ;;;
  settle (prompt_list w question choices).

Definition aws {A : Type} (call : AwsCall)
    (answer : option Credentials -> Outcome A) : M A :=
  emit (EvAws call) ;;;
  creds <- getCredentials ;;
  settle (answer creds).

Definition askMFA : M (option string) := prompt_for_input "mfaCode".

(** Lines 44-61.  The value of [cluster] in the returned object. *)
Definition askCluster (clusterArns : list string) : M (option string) :=
  let clusterNames := map clusterFriendlyName clusterArns in
  let ask := (answer <- prompt_for_choice "cluster" clusterNames ;;
              ret (Some answer)) in
  match argv_cluster w with
  | None => ask
  | Some hint =>
      if negb (hint =? EmptyString) && Js.includes clusterArns hint
      then ret (Js.at_index clusterArns (Js.indexOf clusterArns hint))
      else if negb (hint =? EmptyString) && Js.includes clusterNames hint
      then ret (Js.at_index clusterArns (Js.indexOf clusterNames hint))
      else ask
  end.

(** Lines 70-87.  The returned object: [task] and [index]. *)
Definition askTasks (tasks : list Task) : M (string * Z) :=
  let choices := taskChoices tasks in
  answer <- prompt_for_choice "task" choices ;;
  ret (answer, Js.indexOf choices answer).

Definition askContainers (containerNames : list string) : M string :=
  prompt_for_choice "container" containerNames.

Definition askShell : M string :=
  prompt_for_choice "shell" ["/bin/bash"; "/bin/sh"].

(** Lines 113-144. *)
Definition mfaTokens (mfaToken : string) : M unit :=
  try_catch
    (devices <- aws ListMFADevices (iam_listMFADevices w) ;;
     match devices with
     | [] => throw (Error "No MFA devices found")
     | first :: _ =>
         let serialNumber := SerialNumber first in
         token <- aws (GetSessionToken 3600 serialNumber mfaToken)
                      (fun c => sts_getSessionToken w c 3600 serialNumber mfaToken) ;;
         match token with
         | None => throw (Error "Credentials not generated")
         | Some c =>
             setCredentials
               (Some {| accessKeyId := AccessKeyId c;
                        secretAccessKey := SecretAccessKey c |})
         end
     end)
    (fun e =>
       match instanceofError e with
       | Some message => console_log ("MFA failed: " ++ message)
       | None => ret tt
       end ;;;
       throw (Error "MFA failed")).

(** Lines 146-156 (the spinner is display only). *)
Definition listClusters : M (option (list string)) :=
  aws ListClusters (ecs_listClusters w).

(** Lines 158-179 (the spinner is display only).  [undefined] is
    returned when either list is absent. *)
Definition listTasks (cluster : option string) : M (option (list Task)) :=
  taskArns <- aws (ListTasks cluster "RUNNING")
                  (fun c => ecs_listTasks w c cluster) ;;
  match taskArns with
  | None => ret None
  | Some taskArns =>
      tasks <- aws (DescribeTasks cluster taskArns)
                   (fun c => ecs_describeTasks w c cluster taskArns) ;;
      match tasks with
      | None => ret None
      | Some tasks =>
          ret (Some (filter (fun t => Js.truthy_bool (enableExecuteCommand t)) tasks))
      end
  end.

(** Lines 212-235.  An exception thrown inside the executor of a
    promise rejects the promise.  Both handlers are installed: when the
    child cannot be started the [error] handler prints the error and
    rejects, and the [close] handler that runs after it prints the code
    and the signal; its [resolve] finds the promise settled. *)
Definition spawnAwsScript (cmd : string) (args : list (option string))
    : M (option Z * option string) :=
  creds <- getCredentials ;;
  match creds with
  | None => throw (Error "No AWS credentials to run the script")
  | Some c =>
      emit (EvSpawn cmd args (accessKeyId c) (secretAccessKey c)) ;;;
      match child_process w cmd args with
      | Closed code signal =>
          emit (EvConsoleError (Closed code signal)) ;;;
          ret (code, signal)
      | SpawnError e code signal =>
          emit (EvConsoleError (SpawnError e code signal)) ;;;
          emit (EvConsoleError (Closed code signal)) ;;;
          throw e
      end
  end.

(** [await download(testUrl, execFolder)] *)
Definition run_download (url dest : string) : M unit :=
  emit (EvDownload url dest) ;;;
  fs <- getFiles ;;
  match download w url dest with
  | Saved filename =>
      setFiles (path_join dest filename :: dest :: fs)
  | DownloadFailed e createdDest =>
      (if createdDest then setFiles (dest :: fs) else ret tt) ;;;
      throw e
  end.

Definition testUrl : string :=
  "https://raw.githubusercontent.com/aws-containers/amazon-ecs-exec-checker/main/check-ecs-exec.sh".

(** The [finally] block of [testConfig], lines 205-209, at the values
    the two local variables have when it runs. *)
Definition testConfig_finally (execFolder execPath : option string) : M unit :=
  match execFolder, execPath with
  | Some folder, Some path =>
      if negb (folder =? EmptyString) && negb (path =? EmptyString)
      then
        present <- fs_existsSync path ;;
        if present then fs_rmdirSync folder else ret tt
      else ret tt
  | _, _ => ret tt
  end.

(** Lines 194-210.  [execPath] is assigned after the download, so the
    [finally] block sees it [undefined] when the download rejects and
    assigned on every later exit. *)
Definition testConfig (cluster : option string) (taskArn : string) : M unit :=
  let execFolder := tempfile w in
  fun st =>
    match run_download testUrl execFolder st with
    | (Rejected e, st') =>
        try_finally (throw e) (testConfig_finally (Some execFolder) None) st'
    | (Resolved _, st') =>
        let execPath := path_join execFolder "check-ecs-exec.sh" in
        try_finally
          (fs_chmodSync execPath "755" ;;;
           spawnAwsScript execPath [cluster; Some taskArn] ;;;
           ret tt)
          (testConfig_finally (Some execFolder) (Some execPath)) st'
    end.

(** *** The steps of [run], lines 241-293 *)

(** Lines 243-249. *)
Definition authenticate : M unit :=
  let mfa := Js.default_to true (argv_mfa w) in
  if mfa then
    mfaCode <- askMFA ;;
    match mfaCode with
    | Some code => if code =? EmptyString then ret tt else mfaTokens code
    | None => ret tt
    end
  else ret tt.

(** Lines 250-254. *)
Definition resolveCluster : M (option string) :=
  clusterArns <- listClusters ;;
  match clusterArns with
  | None => throw (Error "No clusters found")
  | Some clusterArns => askCluster clusterArns
  end.

(** Lines 259-263: the selected task and its ARN. *)
Definition pickTask (tasks : list Task) : M (Task * string) :=
  res <- askTasks tasks ;;
  match Js.at_index tasks (snd res) with
  | None =>
      throw (TypeError "Cannot read properties of undefined (reading 'taskArn')")
  | Some selectedTask =>
      match taskArn selectedTask with
      | Some arn =>
          if arn =? EmptyString then throw (Error "Selected task has no ARN")
          else ret (selectedTask, arn)
      | None => throw (Error "Selected task has no ARN")
      end
  end.

(** Lines 255-263. *)
Definition selectTask (cluster : option string) : M (Task * string) :=
  tasks <- listTasks cluster ;;
  match tasks with
  | None => throw (Error "No tasks found in cluster")
  | Some tasks => pickTask tasks
  end.

(** Lines 264-267. *)
Definition validate (cluster : option string) (taskArn : string) : M unit :=
  let test := Js.default_to true (argv_test w) in
  if test then testConfig cluster taskArn else ret tt.

(** Lines 268-272: [containerName]. *)
Definition resolveContainer (selectedTask : Task) : M (option string) :=
  let containers := findExecuteCommandContainer selectedTask in
  if (1 <? length containers)%nat
  then answer <- askContainers containers ;; ret (Some answer)
  else ret (Js.at_index containers 0).

(** Lines 274-286: the arguments of the final [aws]. *)
Definition executeCommandArgs (cluster : option string) (taskArn : string)
    (containerName : option string) (shell : string) : list (option string) :=
  [ Some "ecs"; Some "execute-command";
    Some "--cluster"; cluster;
    Some "--task"; Some taskArn;
    Some "--container"; containerName;
    Some "--interactive";
    Some "--command"; Some (Js.dquote ++ shell ++ Js.dquote) ].

(** Lines 273-286. *)
Definition launch (cluster : option string) (taskArn : string)
    (containerName : option string) : M unit :=
  shell <- askShell ;;
  spawnAwsScript "aws" (executeCommandArgs cluster taskArn containerName shell) ;;;
  ret tt.

(** Lines 268-286: from the selected task to the session. *)
Definition connect (cluster : option string) (selectedTask : Task)
    (taskArn : string) : M unit :=
  containerName <- resolveContainer selectedTask ;;
  launch cluster taskArn containerName.

(** [run]: [undefined] after a completed session, [1] after a caught
    failure. *)
Definition run : M (option Z) :=
  try_catch
    (authenticate ;;;
     cluster <- resolveCluster ;;
     sel <- selectTask cluster ;;
     validate cluster (snd sel) ;;;
     connect cluster (fst sel) (snd sel) ;;;
     ret None)
    (fun e =>
       match instanceofError e with
       | Some message => console_log message
       | None => ret tt
       end ;;;
       ret (Some 1%Z)).

End Program.

(** ** The older variant [src/index.js], where it differs *)

Module IndexJs.

Section Program.

Variable w : World.

(** Lines 37-54: no truthiness guard on the hint; [includes(undefined)]
    is [false] on an array of strings. *)
Definition askCluster (clusterArns : list string) : M (option string) :=
  let clusterNames := map clusterFriendlyName clusterArns in
  let ask := (answer <- prompt_for_choice w "cluster" clusterNames ;;
              ret (Some answer)) in
  match argv_cluster w with
  | None => ask
  | Some hint =>
      if Js.includes clusterArns hint
      then ret (Js.at_index clusterArns (Js.indexOf clusterArns hint))
      else if Js.includes clusterNames hint
      then ret (Js.at_index clusterArns (Js.indexOf clusterNames hint))
      else ask
  end.

(** Line 69: every task is rendered; [undefined.replace] is a
    [TypeError]. *)
Fixpoint taskChoices (tasks : list Task) : Outcome (list string) :=
  match tasks with
  | [] => Resolved []
  | t :: rest =>
      match taskDefinitionArn t with
      | None =>
          Rejected (TypeError "Cannot read properties of undefined (reading 'replace')")
      | Some arn =>
          match taskChoices rest with
          | Resolved labels =>
              Resolved ((taskDefFriendlyName arn ++ " - ("
                           ++ Js.render (launchType t) ++ ")") :: labels)
          | Rejected e => Rejected e
          end
      end
  end.

(** Lines 63-74. *)
Definition askTasks (tasks : list Task) : M (string * Z) :=
  choices <- settle (taskChoices tasks) ;;
  answer <- prompt_for_choice w "task" choices ;;
  ret (answer, Js.indexOf choices answer).

(** Lines 143-147: no guard on [task.containers], and the names are
    passed on as they are.  The test ['managedAgents' in c] is the
    presence of the property. *)
Definition findExecuteCommandContainer (task : Task) : Outcome (list (option string)) :=
  match containers task with
  | None =>
      Rejected (TypeError "Cannot read properties of undefined (reading 'filter')")
  | Some cs => Resolved (map name (filter hasExecuteCommandAgent cs))
  end.

(** Lines 169-192: the credentials, [null] when there are none, are
    read while the options of [spawn] are built, before [spawn] is
    called. *)
Definition spawnAwsScript (cmd : string) (args : list (option string))
    : M (option Z * option string) :=
  creds <- getCredentials ;;
  match creds with
  | None =>
      throw (TypeError "Cannot read properties of null (reading 'accessKeyId')")
  | Some c =>
      emit (EvSpawn cmd args (accessKeyId c) (secretAccessKey c)) ;;;
      match child_process w cmd args with
      | Closed code signal =>
          emit (EvConsoleError (Closed code signal)) ;;;
          ret (code, signal)
      | SpawnError e code signal =>
          emit (EvConsoleError (SpawnError e code signal)) ;;;
          emit (EvConsoleError (Closed code signal)) ;;;
          throw e
      end
  end.

(** Line 137, applied to the [tasks] of the describe response. *)
Definition filterDescribed (tasks : option (list Task)) : Outcome (list Task) :=
  match tasks with
  | None =>
      Rejected (TypeError "Cannot read properties of undefined (reading 'filter')")
  | Some tasks =>
      Resolved (filter (fun t => Js.truthy_bool (enableExecuteCommand t)) tasks)
  end.

End Program.

End IndexJs.

(** ** Specification-side notions *)

(** [keeps P xs ys]: [ys] is [xs] with exactly the elements satisfying
    [P] kept, in their order. *)
Inductive keeps {A : Type} (P : A -> Prop) : list A -> list A -> Prop :=
| keeps_nil : keeps P [] []
| keeps_take x xs ys : P x -> keeps P xs ys -> keeps P (x :: xs) (x :: ys)
| keeps_skip x xs ys : ~ P x -> keeps P xs ys -> keeps P (x :: xs) ys.

(** A container is eligible when its managed agents include one named
    [ExecuteCommandAgent]. *)
Definition eligible (c : Container) : Prop :=
  exists agents m,
    managedAgents c = Some agents /\ In m agents /\
    agent_name m = Some "ExecuteCommandAgent".

(** A task has remote execution enabled. *)
Definition enabled (t : Task) : Prop := enableExecuteCommand t = Some true.

(** The calls made by the credential exchange. *)
Definition isMfaCall (e : Event) : bool :=
  match e with
  | EvAws ListMFADevices => true
  | EvAws (GetSessionToken _ _ _) => true
  | _ => false
  end.

Definition isSpawn (e : Event) : bool :=
  match e with
  | EvSpawn _ _ _ _ => true
  | _ => false
  end.

(** The value after [--container] in the arguments of
    [aws ecs execute-command]. *)
Definition containerArgument (args : list (option string)) : option string :=
  match nth_error args 7 with
  | Some v => v
  | None => None
  end.

(** Every launch of [aws] among the events names a container. *)
Definition namesContainer (e : Event) : bool :=
  match e with
  | EvSpawn cmd args _ _ =>
      if cmd =? "aws"
      then match containerArgument args with Some _ => true | None => false end
      else true
  | _ => true
  end.

(** [m] leaves the credentials alone and makes no call of the
    credential exchange. *)
Definition skips_mfa {A : Type} (m : M A) : Prop :=
  forall st,
    credentials (snd (m st)) = credentials st /\
    exists evs,
      trace (snd (m st)) = (trace st ++ evs)%list /\
      forallb (fun e => negb (isMfaCall e)) evs = true.

(** The operator gave no MFA code: the flag is off, or the answer to
    the prompt is absent or empty. *)
Definition noMfaCode (w : World) : Prop :=
  argv_mfa w = Some false \/
  prompt_input w "mfaCode" = Resolved None \/
  prompt_input w "mfaCode" = Resolved (Some EmptyString).

(** Nothing at or beneath [dir] exists. *)
Definition absent (dir : string) (fs : list string) : Prop :=
  forall p, In p fs -> within dir p = false.

(** The same world with another listing of MFA devices. *)
Definition with_devices (w : World) (devices : list MFADevice) : World :=
  {| argv_mfa := argv_mfa w;
     argv_cluster := argv_cluster w;
     argv_test := argv_test w;
     prompt_input := prompt_input w;
     prompt_list := prompt_list w;
     iam_listMFADevices := fun _ => Resolved devices;
     sts_getSessionToken := sts_getSessionToken w;
     ecs_listClusters := ecs_listClusters w;
     ecs_listTasks := ecs_listTasks w;
     ecs_describeTasks := ecs_describeTasks w;
     tempfile := tempfile w;
     download := download w;
     child_process := child_process w |}.

(** ** Concrete scenarios *)

Module Scenario.

(** The operator takes the entry at position [p] of a list prompt. *)
Definition takes (p : nat) (choices : list string) : Outcome string :=
  match nth_error choices p with
  | Some s => Resolved s
  | None => Rejected (Thrown "prompt cancelled")
  end.

(** Position [p] at the task prompt, the first entry elsewhere. *)
Definition atTask (p : nat) (question : string) : nat :=
  if question =? "task" then p else 0.

(** A run with the given hint, MFA code, clusters, task ARNs, described
    tasks, position taken at each list prompt, and download outcome;
    every child closes with exit code 0. *)
Definition world (hint : option string) (mfaCode : option string)
    (clusters : option (list string))
    (taskArns : option (list string)) (tasks : option (list Task))
    (pos : string -> nat) (dl : DownloadOutcome) : World :=
  {| argv_mfa := Some true;
     argv_cluster := hint;
     argv_test := Some true;
     prompt_input := fun _ => Resolved mfaCode;
     prompt_list := fun question choices => takes (pos question) choices;
     iam_listMFADevices :=
       fun _ => Resolved [ {| SerialNumber := "arn:aws:iam::123456789012:mfa/alice" |};
                           {| SerialNumber := "arn:aws:iam::123456789012:mfa/spare" |} ];
     sts_getSessionToken :=
       fun _ _ serial _ =>
         Resolved (Some {| AccessKeyId := "ASIA-" ++ serial;
                           SecretAccessKey := "session-secret" |});
     ecs_listClusters := fun _ => Resolved clusters;
     ecs_listTasks := fun _ _ => Resolved taskArns;
     ecs_describeTasks := fun _ _ _ => Resolved tasks;
     tempfile := "/tmp/3f0c";
     download := fun _ _ => dl;
     child_process := fun _ _ => Closed (Some 0%Z) None |}.

Definition ambient : State :=
  {| credentials := Some {| accessKeyId := "AKIAEXAMPLE";
                            secretAccessKey := "ambient-secret" |};
     files := ["/tmp"];
     trace := [] |}.

Definition unauthenticated : State :=
  {| credentials := None; files := ["/tmp"]; trace := [] |}.

Definition agent : ManagedAgent := {| agent_name := Some "ExecuteCommandAgent" |}.

Definition app : Container :=
  {| name := Some "app"; managedAgents := Some [agent] |}.

Definition sidecar : Container :=
  {| name := Some "sidecar"; managedAgents := None |}.

Definition nameless : Container :=
  {| name := None; managedAgents := Some [agent] |}.

Definition webDef : string :=
  "arn:aws:ecs:us-east-1:123456789012:task-definition/web:3".

(** Two replicas of one task definition: their display strings agree. *)
Definition replicaA : Task :=
  {| taskArn := Some "arn:aws:ecs:us-east-1:123456789012:task/prod/aaaa";
     taskDefinitionArn := Some webDef;
     launchType := Some "FARGATE";
     enableExecuteCommand := Some true;
     containers := Some [app] |}.

Definition replicaB : Task :=
  {| taskArn := Some "arn:aws:ecs:us-east-1:123456789012:task/prod/bbbb";
     taskDefinitionArn := Some webDef;
     launchType := Some "FARGATE";
     enableExecuteCommand := Some true;
     containers := Some [app] |}.

(** A task without a task-definition reference. *)
Definition orphan : Task :=
  {| taskArn := Some "arn:aws:ecs:us-east-1:123456789012:task/prod/cccc";
     taskDefinitionArn := None;
     launchType := Some "EC2";
     enableExecuteCommand := Some true;
     containers := Some [app] |}.

(** A task none of whose containers runs the agent. *)
Definition bare : Task :=
  {| taskArn := Some "arn:aws:ecs:us-east-1:123456789012:task/prod/dddd";
     taskDefinitionArn := Some webDef;
     launchType := Some "FARGATE";
     enableExecuteCommand := Some true;
     containers := Some [sidecar] |}.

(** A task with a container outside remote execution, a nameless
    eligible one and a named eligible one. *)
Definition mixed : Task :=
  {| taskArn := Some "arn:aws:ecs:us-east-1:123456789012:task/prod/ffff";
     taskDefinitionArn := Some webDef;
     launchType := Some "EC2";
     enableExecuteCommand := Some true;
     containers := Some [sidecar; nameless; app] |}.

Definition disabled : Task :=
  {| taskArn := Some "arn:aws:ecs:us-east-1:123456789012:task/prod/eeee";
     taskDefinitionArn := Some webDef;
     launchType := Some "FARGATE";
     enableExecuteCommand := Some false;
     containers := Some [app] |}.

Definition prodArn : string := "arn:aws:ecs:us-east-1:123456789012:cluster/prod".

(** The operator gives no MFA code, passes [--cluster prod], and takes
    the first entry of every list; the cluster runs [tasks]. *)
Definition session (tasks : list Task) : World :=
  world (Some "prod") (Some EmptyString) (Some [prodArn])
        (Some (map (fun t => Js.render (taskArn t)) tasks)) (Some tasks)
        (atTask 0) (Saved "check-ecs-exec.sh").

End Scenario.

(** ** The claims of the specification that the program does not meet,
       as they are stated *)

Module AsStated.

(** Task resolution: the task at the position the operator took in the
    choice list is the one selected. *)
Definition chosen_position_is_selected : Prop :=
  forall (w : World) (tasks : list Task) (p : nat) (label : string) (st : State),
    nth_error (taskChoices tasks) p = Some label ->
    prompt_list w "task" (taskChoices tasks) = Resolved label ->
    exists t,
      nth_error tasks p = Some t /\
      forall t' arn st',
        pickTask w tasks st = (Resolved (t', arn), st') -> t' = t.

(** Task listing: an absent list of task ARNs or of described tasks
    comes out as the empty sequence. *)
Definition absent_lists_surface_empty : Prop :=
  forall (w : World) (cluster : option string) (st : State),
    ecs_listTasks w (credentials st) cluster = Resolved None \/
    (exists arns,
        ecs_listTasks w (credentials st) cluster = Resolved (Some arns) /\
        ecs_describeTasks w (credentials st) cluster arns = Resolved None) ->
    fst (listTasks w cluster st) = Resolved (Some []).

(** Validation: whatever happens, the download location is gone when
    [testConfig] is over. *)
Definition download_location_always_removed : Prop :=
  forall (w : World) (cluster : option string) (taskArn : string) (st : State),
    absent (tempfile w) (files st) ->
    absent (tempfile w) (files (snd (testConfig w cluster taskArn st))).

End AsStated.

(** ** Further notions *)

(** Every character of [s] satisfies [p]. *)
Fixpoint all_chars (p : ascii -> bool) (s : string) : bool :=
  match s with
  | EmptyString => true
  | String c s' => p c && all_chars p s'
  end.

Definition notSlash (c : ascii) : bool := negb (Ascii.eqb c "/"%char).

Definition notLineTerminator (c : ascii) : bool := negb (Js.is_line_terminator c).

(** [s] ends with [suffix]. *)
Fixpoint endsWith (s suffix : string) : bool :=
  (s =? suffix)
  || match s with
     | EmptyString => false
     | String _ s' => endsWith s' suffix
     end.

(** An identifier as [listClusters] returns them names a cluster: it is
    not empty and does not end at [cluster/], the name of a cluster
    having at least one character. *)
Definition namesCluster (clusterArn : string) : bool :=
  negb (clusterArn =? EmptyString) && negb (endsWith clusterArn "cluster/").

(** A task has a task-definition reference. *)
Definition referenced (t : Task) : Prop :=
  Js.truthy (taskDefinitionArn t) = true.

(** [st] with [evs] added to its trace. *)
Definition logged (st : State) (evs : list Event) : State :=
  {| credentials := credentials st;
     files := files st;
     trace := trace st ++ evs |}.

(** A predicate on the state that [m] carries from its start to its
    end, however it settles. *)
Definition preserves {A : Type} (I : State -> Prop) (m : M A) : Prop :=
  forall st, I st -> I (snd (m st)).

(** Since [st0] the trace has only gained events satisfying [T]. *)
Definition grown (T : Event -> bool) (st0 st : State) : Prop :=
  exists evs, trace st = (trace st0 ++ evs)%list /\ forallb T evs = true.

(** A spawn, if [e] is one, handed the child the credentials [c]. *)
Definition spawnedWith (c : option Credentials) (e : Event) : bool :=
  match e with
  | EvSpawn _ _ keyId secret =>
      match c with
      | Some c => (keyId =? accessKeyId c) && (secret =? secretAccessKey c)
      | None => false
      end
  | _ => true
  end.

(** Since [st0] the credentials are [c] and every child got them. *)
Definition forwards (c : option Credentials) (st0 st : State) : Prop :=
  credentials st = c /\ grown (spawnedWith c) st0 st.

(** [e] is no download, [chmod] or [rmdir], and no spawn of anything
    but [aws]. *)
Definition leavesDisk (e : Event) : bool :=
  match e with
  | EvDownload _ _ => false
  | EvChmod _ _ => false
  | EvRmdir _ => false
  | EvSpawn cmd _ _ _ => cmd =? "aws"
  | _ => true
  end.

(** Since [st0] the files are the same and the disk was left alone. *)
Definition undisturbed (st0 st : State) : Prop :=
  files st = files st0 /\ grown leavesDisk st0 st.

(** [e] is no call of [aws] and no prompt. *)
Definition isQuiet (e : Event) : bool :=
  match e with
  | EvSpawn _ _ _ _ => false
  | EvPrompt _ _ => false
  | EvAws _ => false
  | _ => true
  end.

Section RunInParts.

Variable w : World.

(** [run] after the MFA step, lines 250-286. *)
Definition afterAuthenticate : M (option Z) :=
  cluster <- resolveCluster w ;;
  sel <- selectTask w cluster ;;
  validate w cluster (snd sel) ;;;
  connect w cluster (fst sel) (snd sel) ;;;
  ret None.

(** The body of the [try] of [run], lines 243-286. *)
Definition attempt : M (option Z) :=
  authenticate w ;;; afterAuthenticate.

(** The [catch] of [run], lines 287-292. *)
Definition report (e : Exn) : M (option Z) :=
  match instanceofError e with
  | Some message => console_log message
  | None => ret tt
  end ;;;
  ret (Some 1%Z).

End RunInParts.

(** The same world with other answers at the list prompts. *)
Definition with_answers (w : World)
    (answers : string -> list string -> Outcome string) : World :=
  {| argv_mfa := argv_mfa w;
     argv_cluster := argv_cluster w;
     argv_test := argv_test w;
     prompt_input := prompt_input w;
     prompt_list := answers;
     iam_listMFADevices := iam_listMFADevices w;
     sts_getSessionToken := sts_getSessionToken w;
     ecs_listClusters := ecs_listClusters w;
     ecs_listTasks := ecs_listTasks w;
     ecs_describeTasks := ecs_describeTasks w;
     tempfile := tempfile w;
     download := download w;
     child_process := child_process w |}.

(** The same world with another value of [--test]. *)
Definition with_test (w : World) (test : option bool) : World :=
  {| argv_mfa := argv_mfa w;
     argv_cluster := argv_cluster w;
     argv_test := test;
     prompt_input := prompt_input w;
     prompt_list := prompt_list w;
     iam_listMFADevices := iam_listMFADevices w;
     sts_getSessionToken := sts_getSessionToken w;
     ecs_listClusters := ecs_listClusters w;
     ecs_listTasks := ecs_listTasks w;
     ecs_describeTasks := ecs_describeTasks w;
     tempfile := tempfile w;
     download := download w;
     child_process := child_process w |}.

(** The same world with another fate of the children. *)
Definition with_children (w : World)
    (children : string -> list (option string) -> ChildOutcome) : World :=
  {| argv_mfa := argv_mfa w;
     argv_cluster := argv_cluster w;
     argv_test := argv_test w;
     prompt_input := prompt_input w;
     prompt_list := prompt_list w;
     iam_listMFADevices := iam_listMFADevices w;
     sts_getSessionToken := sts_getSessionToken w;
     ecs_listClusters := ecs_listClusters w;
     ecs_listTasks := ecs_listTasks w;
     ecs_describeTasks := ecs_describeTasks w;
     tempfile := tempfile w;
     download := download w;
     child_process := children |}.

(** * Properties *)

(** ** Arrays and strings *)

Section JsFacts.

Lemma includes_In (xs : list string) (x : string) :
  Js.includes xs x = true <-> In x xs.
Proof.
  unfold Js.includes. rewrite existsb_exists. split.
  - intros [y [Hin Heq]]. apply String.eqb_eq in Heq. now subst.
  - intros Hin. exists x. split; [assumption | apply String.eqb_refl].
Qed.

Lemma indexOf_bounds (xs : list string) (x : string) :
  (-1 <= Js.indexOf xs x)%Z.
Proof.
  induction xs as [|y ys IH]; simpl; [lia|].
  destruct (y =? x); [lia|].
  destruct (Js.indexOf ys x <? 0)%Z eqn:E; [lia|].
  apply Z.ltb_ge in E. lia.
Qed.

(** [indexOf] finds the first position holding the value, at or before
    any position known to hold it. *)
Lemma indexOf_first (xs : list string) (x : string) (p : nat) :
  nth_error xs p = Some x ->
  exists i,
    i <= p /\ Js.indexOf xs x = Z.of_nat i /\ nth_error xs i = Some x /\
    forall j, j < i -> nth_error xs j <> Some x.
Proof.
  revert p. induction xs as [|y ys IH]; intros p Hp.
  - destruct p; discriminate.
  - simpl. destruct (y =? x) eqn:E.
    + apply String.eqb_eq in E. subst y. exists 0.
      repeat split; [lia | intros j Hj; lia].
    + destruct p as [|p].
      * simpl in Hp. injection Hp as ->. rewrite String.eqb_refl in E. discriminate.
      * simpl in Hp. destruct (IH p Hp) as [i [Hle [Hidx [Hnth Hmin]]]].
        exists (S i). rewrite Hidx.
        replace (Z.of_nat i <? 0)%Z with false by (symmetry; apply Z.ltb_ge; lia).
        repeat split; [lia | lia | exact Hnth |].
        intros [|j] Hj; simpl.
        -- intros H. injection H as ->. rewrite String.eqb_refl in E. discriminate.
        -- apply Hmin. lia.
Qed.

Lemma at_index_of_nat {A : Type} (xs : list A) (i : nat) :
  Js.at_index xs (Z.of_nat i) = nth_error xs i.
Proof.
  unfold Js.at_index.
  replace (Z.of_nat i <? 0)%Z with false by (symmetry; apply Z.ltb_ge; lia).
  now rewrite Nat2Z.id.
Qed.

Lemma append_nonempty (a b : string) :
  b <> EmptyString -> (a ++ b =? EmptyString) = false.
Proof.
  intros Hb. apply String.eqb_neq. destruct a; simpl; [assumption | discriminate].
Qed.

End JsFacts.

(** ** Filtering *)

Section Filtering.

Context {A : Type} (P : A -> Prop) (f : A -> bool).
Hypothesis f_decides : forall x, f x = true <-> P x.

Lemma filter_keeps (xs : list A) : keeps P xs (filter f xs).
Proof.
  induction xs as [|x xs IH]; simpl.
  - constructor.
  - destruct (f x) eqn:E.
    + apply keeps_take; [now apply f_decides | exact IH].
    + apply keeps_skip; [| exact IH].
      intros HP. apply f_decides in HP. congruence.
Qed.

Lemma keeps_unique (xs ys zs : list A) :
  keeps P xs ys -> keeps P xs zs -> ys = zs.
Proof.
  intros H. revert zs.
  induction H as [| x xs ys Hx _ IH | x xs ys Hx _ IH]; intros zs Hz;
    inversion Hz; subst; try contradiction; try reflexivity.
  - f_equal. now apply IH.
  - now apply IH.
Qed.

Lemma keeps_In (xs ys : list A) :
  keeps P xs ys -> forall x, In x ys <-> In x xs /\ P x.
Proof.
  induction 1 as [| y xs ys Hy _ IH | y xs ys Hy _ IH]; intros x; simpl.
  - tauto.
  - rewrite IH. split.
    + intros [-> | [Hin Hp]]; tauto.
    + intros [[-> | Hin] Hp]; tauto.
  - rewrite IH. split.
    + tauto.
    + intros [[-> | Hin] Hp]; [contradiction | tauto].
Qed.

End Filtering.

Lemma hasExecuteCommandAgent_eligible (c : Container) :
  hasExecuteCommandAgent c = true <-> eligible c.
Proof.
  unfold hasExecuteCommandAgent, eligible, Js.find.
  destruct (managedAgents c) as [agents|].
  - destruct (List.find isExecuteCommandAgent agents) as [m|] eqn:E.
    + split; [intros _ | reflexivity].
      apply find_some in E. destruct E as [Hin Hm].
      exists agents, m. repeat split; try assumption.
      unfold isExecuteCommandAgent in Hm.
      destruct (agent_name m) as [n|]; [| discriminate].
      apply String.eqb_eq in Hm. now subst.
    + split; [discriminate |].
      intros [agents' [m [Heq [Hin Hname]]]]. injection Heq as <-.
      pose proof (find_none _ _ E m Hin) as Hno.
      unfold isExecuteCommandAgent in Hno. rewrite Hname in Hno.
      rewrite String.eqb_refl in Hno. discriminate.
  - split; [discriminate |].
    intros [agents [m [Heq _]]]. discriminate.
Qed.

Lemma enableExecuteCommand_enabled (t : Task) :
  Js.truthy_bool (enableExecuteCommand t) = true <-> enabled t.
Proof.
  unfold enabled, Js.truthy_bool.
  destruct (enableExecuteCommand t) as [[|]|]; split; congruence.
Qed.

(** C5.  [findExecuteCommandContainer] answers the empty sequence for a
    task without a [containers] field, and otherwise the names of
    exactly the containers that have a managed agent named
    [ExecuteCommandAgent], in their order. *)
Theorem findExecuteCommandContainer_eligibility :
  (forall arn def lt en,
      findExecuteCommandContainer
        {| taskArn := arn; taskDefinitionArn := def; launchType := lt;
           enableExecuteCommand := en; containers := None |} = []) /\
  (forall task : Task,
      exists kept,
        keeps eligible (Js.default_to [] (containers task)) kept /\
        findExecuteCommandContainer task
        = map (fun c => Js.or_else (name c) "container") kept).
Proof.
  split.
  - reflexivity.
  - intros task. unfold findExecuteCommandContainer.
    destruct (containers task) as [cs|]; simpl.
    + exists (filter hasExecuteCommandAgent cs). split; [| reflexivity].
      apply filter_keeps. exact hasExecuteCommandAgent_eligible.
    + exists []. split; [constructor | reflexivity].
Qed.

(** ** Running a computation *)

Ltac async_unfold :=
  unfold prompt_for_choice, prompt_for_input, aws, console_log,
         fs_existsSync, fs_chmodSync, fs_rmdirSync,
         try_catch, try_finally, bind, ret, throw, emit, settle,
         getCredentials, setCredentials, getFiles, setFiles in *.

Ltac trace_suffix :=
  simpl; repeat rewrite <- app_assoc; simpl;
  eexists; split; [reflexivity | reflexivity].

(** ** Container resolution *)

Section ContainerResolution.

Variable w : World.

(** One eligible container: it is taken, and nothing is asked. *)
Lemma resolveContainer_single (task : Task) (c : string) (st : State) :
  findExecuteCommandContainer task = [c] ->
  resolveContainer w task st = (Resolved (Some c), st).
Proof.
  intros H. unfold resolveContainer. rewrite H. reflexivity.
Qed.

(** Two or more eligible containers: the operator is asked. *)
Lemma resolveContainer_several (task : Task) (c1 c2 : string) (rest : list string)
    (st : State) :
  findExecuteCommandContainer task = c1 :: c2 :: rest ->
  resolveContainer w task st
  = (match prompt_list w "container" (c1 :: c2 :: rest) with
     | Resolved answer => Resolved (Some answer)
     | Rejected e => Rejected e
     end,
     {| credentials := credentials st;
        files := files st;
        trace := trace st ++ [EvPrompt "container" (c1 :: c2 :: rest)] |}).
Proof.
  intros H. unfold resolveContainer, askContainers. rewrite H.
  async_unfold. simpl.
  destruct (prompt_list w "container" (c1 :: c2 :: rest)); reflexivity.
Qed.

(** No eligible container: nothing is asked and nothing is raised; the
    container name is [undefined]. *)
Lemma resolveContainer_none (task : Task) (st : State) :
  findExecuteCommandContainer task = [] ->
  resolveContainer w task st = (Resolved None, st).
Proof.
  intros H. unfold resolveContainer. rewrite H. reflexivity.
Qed.

(** What [launch] hands to [spawn] once the shell is chosen. *)
Lemma launch_spawns (cluster : option string) (taskArn : string)
    (containerName : option string) (shell : string) (c : Credentials)
    (st : State) :
  credentials st = Some c ->
  prompt_list w "shell" ["/bin/bash"; "/bin/sh"] = Resolved shell ->
  exists evs,
    trace (snd (launch w cluster taskArn containerName st))
    = (trace st
         ++ EvPrompt "shell" ["/bin/bash"; "/bin/sh"]
         :: EvSpawn "aws" (executeCommandArgs cluster taskArn containerName shell)
              (accessKeyId c) (secretAccessKey c)
         :: evs)%list.
Proof.
  intros Hc Hs. unfold launch, askShell, spawnAwsScript. async_unfold.
  simpl. rewrite Hs, Hc.
  match goal with |- context [child_process w ?c ?a] =>
    destruct (child_process w c a) end;
    simpl; repeat rewrite <- app_assoc; simpl; eexists; reflexivity.
Qed.

Lemma launch_names_container (cluster : option string) (taskArn : string)
    (containerName : string) (st : State) :
  exists evs,
    trace (snd (launch w cluster taskArn (Some containerName) st))
    = (trace st ++ evs)%list /\
    forallb namesContainer evs = true.
Proof.
  unfold launch, askShell, spawnAwsScript. async_unfold. simpl.
  destruct (prompt_list w "shell" ["/bin/bash"; "/bin/sh"]); [| trace_suffix].
  destruct (credentials st); [| trace_suffix].
  match goal with |- context [child_process w ?c ?a] =>
    destruct (child_process w c a) end; trace_suffix.
Qed.

End ContainerResolution.

(** C10.  An eligible container without a name appears as
    ["container"] at its position in the list of choices, and with it
    in the task the value passed after [--container] is never
    [undefined]. *)
Theorem nameless_container_is_called_container
    (w : World) (cluster : option string) (taskArn : string)
    (task : Task) (cs kept : list Container) (i : nat) (c : Container)
    (st : State) :
  containers task = Some cs ->
  keeps eligible cs kept ->
  nth_error kept i = Some c ->
  name c = None ->
  nth_error (findExecuteCommandContainer task) i = Some "container" /\
  (match fst (resolveContainer w task st) with
   | Resolved containerName => containerName <> None
   | Rejected e =>
       prompt_list w "container" (findExecuteCommandContainer task) = Rejected e
   end) /\
  exists evs,
    trace (snd (connect w cluster task taskArn st)) = (trace st ++ evs)%list /\
    forallb namesContainer evs = true.
Proof.
  intros Hcs Hkept Hi Hname.
  assert (Hk : kept = filter hasExecuteCommandAgent cs).
  { eapply keeps_unique; [exact Hkept |].
    apply filter_keeps. exact hasExecuteCommandAgent_eligible. }
  assert (Hout : findExecuteCommandContainer task
                 = map (fun c => Js.or_else (name c) "container") kept).
  { unfold findExecuteCommandContainer. rewrite Hcs. now subst kept. }
  assert (Hnth : nth_error (findExecuteCommandContainer task) i = Some "container").
  { rewrite Hout. rewrite nth_error_map, Hi. simpl. now rewrite Hname. }
  split; [exact Hnth |].
  destruct (findExecuteCommandContainer task) as [|c1 [|c2 rest]] eqn:E.
  - destruct i; discriminate.
  - split.
    + erewrite resolveContainer_single by exact E. simpl. discriminate.
    + unfold connect, bind. erewrite resolveContainer_single by exact E.
      apply launch_names_container.
  - split.
    + erewrite resolveContainer_several by exact E. simpl.
      destruct (prompt_list w "container" (c1 :: c2 :: rest)); [discriminate | reflexivity].
    + unfold connect, bind. erewrite resolveContainer_several by exact E.
      destruct (prompt_list w "container" (c1 :: c2 :: rest)) as [answer|e].
      * destruct (launch_names_container w cluster taskArn answer
                    {| credentials := credentials st;
                       files := files st;
                       trace := trace st ++ [EvPrompt "container" (c1 :: c2 :: rest)] |})
          as [evs [Htr Hall]].
        rewrite Htr. simpl. rewrite <- app_assoc. simpl.
        eexists. split; [reflexivity |]. simpl. exact Hall.
      * simpl. eexists. split; reflexivity.
Qed.

Lemma nameless_container_is_called_container_witness :
  nth_error (findExecuteCommandContainer Scenario.mixed) 0 = Some "container" /\
  (match fst (resolveContainer (Scenario.session [Scenario.mixed]) Scenario.mixed
                Scenario.ambient) with
   | Resolved containerName => containerName <> None
   | Rejected e =>
       prompt_list (Scenario.session [Scenario.mixed]) "container"
         (findExecuteCommandContainer Scenario.mixed) = Rejected e
   end) /\
  exists evs,
    trace (snd (connect (Scenario.session [Scenario.mixed]) (Some Scenario.prodArn)
                  Scenario.mixed "arn:aws:ecs:us-east-1:123456789012:task/prod/ffff"
                  Scenario.ambient))
    = (trace Scenario.ambient ++ evs)%list /\
    forallb namesContainer evs = true.
Proof.
  apply (@nameless_container_is_called_container
           (Scenario.session [Scenario.mixed]) (Some Scenario.prodArn)
           "arn:aws:ecs:us-east-1:123456789012:task/prod/ffff"
           Scenario.mixed
           [Scenario.sidecar; Scenario.nameless; Scenario.app]
           [Scenario.nameless; Scenario.app] 0 Scenario.nameless Scenario.ambient).
  - reflexivity.
  - exact (@filter_keeps _ eligible hasExecuteCommandAgent
             hasExecuteCommandAgent_eligible
             [Scenario.sidecar; Scenario.nameless; Scenario.app]).
  - reflexivity.
  - reflexivity.
Defined.

(** C2.  A selected task without any eligible container: no error is
    raised and no container prompt is shown; the run goes on to the
    shell prompt and launches [aws] with [undefined] after
    [--container]. *)
Theorem run_without_eligible_container :
  findExecuteCommandContainer Scenario.bare = [] /\
  resolveContainer (Scenario.session [Scenario.bare]) Scenario.bare Scenario.ambient
  = (Resolved None, Scenario.ambient) /\
  fst (run (Scenario.session [Scenario.bare]) Scenario.ambient) = Resolved None /\
  trace (snd (run (Scenario.session [Scenario.bare]) Scenario.ambient))
  = [ EvPrompt "mfaCode" [];
      EvAws ListClusters;
      EvAws (ListTasks (Some Scenario.prodArn) "RUNNING");
      EvAws (DescribeTasks (Some Scenario.prodArn)
               ["arn:aws:ecs:us-east-1:123456789012:task/prod/dddd"]);
      EvPrompt "task" ["web:3 - (FARGATE)"];
      EvDownload testUrl "/tmp/3f0c";
      EvChmod "/tmp/3f0c/check-ecs-exec.sh" "755";
      EvSpawn "/tmp/3f0c/check-ecs-exec.sh"
        [Some Scenario.prodArn;
         Some "arn:aws:ecs:us-east-1:123456789012:task/prod/dddd"]
        "AKIAEXAMPLE" "ambient-secret";
      EvConsoleError (Closed (Some 0%Z) None);
      EvRmdir "/tmp/3f0c";
      EvPrompt "shell" ["/bin/bash"; "/bin/sh"];
      EvSpawn "aws"
        (executeCommandArgs (Some Scenario.prodArn)
           "arn:aws:ecs:us-east-1:123456789012:task/prod/dddd" None "/bin/bash")
        "AKIAEXAMPLE" "ambient-secret";
      EvConsoleError (Closed (Some 0%Z) None) ] /\
  containerArgument
    (executeCommandArgs (Some Scenario.prodArn)
       "arn:aws:ecs:us-east-1:123456789012:task/prod/dddd" None "/bin/bash") = None.
Proof.
  repeat split; vm_compute; reflexivity.
Qed.

(** ** The process launcher *)

(** C4.  Without active credentials [spawnAwsScript] rejects with its
    error and leaves the state as it was: the trace gains no spawn. *)
Theorem spawnAwsScript_requires_credentials
    (w : World) (cmd : string) (args : list (option string)) (st : State) :
  credentials st = None ->
  spawnAwsScript w cmd args st
  = (Rejected (Error "No AWS credentials to run the script"), st) /\
  trace (snd (spawnAwsScript w cmd args st)) = trace st.
Proof.
  intros H. unfold spawnAwsScript. async_unfold. rewrite H. split; reflexivity.
Qed.

Lemma spawnAwsScript_requires_credentials_witness :
  credentials Scenario.unauthenticated = None /\
  spawnAwsScript (Scenario.session [Scenario.replicaA]) "aws" [Some "ecs"]
    Scenario.unauthenticated
  = (Rejected (Error "No AWS credentials to run the script"), Scenario.unauthenticated) /\
  trace (snd (spawnAwsScript (Scenario.session [Scenario.replicaA]) "aws" [Some "ecs"]
                Scenario.unauthenticated))
  = trace Scenario.unauthenticated.
Proof.
  split; [reflexivity |].
  apply (spawnAwsScript_requires_credentials
           (Scenario.session [Scenario.replicaA]) "aws" [Some "ecs"]
           Scenario.unauthenticated).
  reflexivity.
Defined.

(** With credentials the spawn is attempted. *)
Lemma spawnAwsScript_with_credentials
    (w : World) (cmd : string) (args : list (option string)) (c : Credentials)
    (st : State) :
  credentials st = Some c ->
  exists evs,
    trace (snd (spawnAwsScript w cmd args st))
    = (trace st ++ EvSpawn cmd args (accessKeyId c) (secretAccessKey c) :: evs)%list.
Proof.
  intros H. unfold spawnAwsScript. async_unfold. rewrite H. simpl.
  destruct (child_process w cmd args); simpl;
    rewrite <- !app_assoc; simpl; eexists; reflexivity.
Qed.

(** [src/index.js] has no guard of its own: reading [accessKeyId] off
    the missing credentials raises inside the executor, before [spawn]
    is reached. *)
Lemma IndexJs_spawnAwsScript_without_credentials
    (w : World) (cmd : string) (args : list (option string)) (st : State) :
  credentials st = None ->
  exists e, IndexJs.spawnAwsScript w cmd args st = (Rejected e, st).
Proof.
  intros H. unfold IndexJs.spawnAwsScript. async_unfold. rewrite H.
  eexists. reflexivity.
Qed.

(** ** The credential state *)

Section Frame.

Lemma skips_mfa_ret {A : Type} (a : A) : skips_mfa (ret a).
Proof.
  intros st. split; [reflexivity |]. exists []. simpl.
  now rewrite app_nil_r.
Qed.

Lemma skips_mfa_throw {A : Type} (e : Exn) : skips_mfa (@throw A e).
Proof.
  intros st. split; [reflexivity |]. exists []. simpl.
  now rewrite app_nil_r.
Qed.

Lemma skips_mfa_settle {A : Type} (o : Outcome A) : skips_mfa (settle o).
Proof.
  intros st. split; [reflexivity |]. exists []. simpl.
  now rewrite app_nil_r.
Qed.

Lemma skips_mfa_getCredentials : skips_mfa getCredentials.
Proof.
  intros st. split; [reflexivity |]. exists []. simpl.
  now rewrite app_nil_r.
Qed.

Lemma skips_mfa_getFiles : skips_mfa getFiles.
Proof.
  intros st. split; [reflexivity |]. exists []. simpl.
  now rewrite app_nil_r.
Qed.

Lemma skips_mfa_setFiles (fs : list string) : skips_mfa (setFiles fs).
Proof.
  intros st. split; [reflexivity |]. exists []. simpl.
  now rewrite app_nil_r.
Qed.

Lemma skips_mfa_emit (e : Event) : isMfaCall e = false -> skips_mfa (emit e).
Proof.
  intros He st. split; [reflexivity |]. exists [e]. simpl.
  now rewrite He.
Qed.

Lemma skips_mfa_bind {A B : Type} (m : M A) (k : A -> M B) :
  skips_mfa m -> (forall a, skips_mfa (k a)) -> skips_mfa (bind m k).
Proof.
  intros Hm Hk st. unfold bind.
  destruct (Hm st) as [Hc [evs [Ht Hall]]].
  destruct (m st) as [[a|e] st1]; simpl in *.
  - destruct (Hk a st1) as [Hc' [evs' [Ht' Hall']]].
    split; [congruence |].
    exists (evs ++ evs')%list. rewrite Ht', Ht, app_assoc. split; [reflexivity |].
    rewrite forallb_app, Hall, Hall'. reflexivity.
  - split; [assumption |]. exists evs. now split.
Qed.

Lemma skips_mfa_try_catch {A : Type} (body : M A) (handler : Exn -> M A) :
  skips_mfa body -> (forall e, skips_mfa (handler e)) ->
  skips_mfa (try_catch body handler).
Proof.
  intros Hm Hk st. unfold try_catch.
  destruct (Hm st) as [Hc [evs [Ht Hall]]].
  destruct (body st) as [[a|e] st1]; simpl in *.
  - split; [assumption |]. exists evs. now split.
  - destruct (Hk e st1) as [Hc' [evs' [Ht' Hall']]].
    split; [congruence |].
    exists (evs ++ evs')%list. rewrite Ht', Ht, app_assoc. split; [reflexivity |].
    rewrite forallb_app, Hall, Hall'. reflexivity.
Qed.

Lemma skips_mfa_try_finally {A : Type} (body : M A) (fin : M unit) :
  skips_mfa body -> skips_mfa fin -> skips_mfa (try_finally body fin).
Proof.
  intros Hm Hk st. unfold try_finally.
  destruct (Hm st) as [Hc [evs [Ht Hall]]].
  destruct (body st) as [r st1]; simpl in *.
  destruct (Hk st1) as [Hc' [evs' [Ht' Hall']]].
  assert (Hgoal : credentials (snd (fin st1)) = credentials st /\
                  exists evs0, trace (snd (fin st1)) = (trace st ++ evs0)%list /\
                               forallb (fun e => negb (isMfaCall e)) evs0 = true).
  { split; [congruence |].
    exists (evs ++ evs')%list. rewrite Ht', Ht, app_assoc. split; [reflexivity |].
    rewrite forallb_app, Hall, Hall'. reflexivity. }
  destruct (fin st1) as [[u|e] st2]; exact Hgoal.
Qed.

End Frame.

Ltac frame_step :=
  first
    [ apply skips_mfa_ret
    | apply skips_mfa_throw
    | apply skips_mfa_settle
    | apply skips_mfa_getCredentials
    | apply skips_mfa_getFiles
    | apply skips_mfa_setFiles
    | apply skips_mfa_emit; reflexivity
    | apply skips_mfa_bind; [| intro]
    | apply skips_mfa_try_catch; [| intro]
    | apply skips_mfa_try_finally
    | match goal with
      | |- skips_mfa (match ?x with _ => _ end) => destruct x
      | |- skips_mfa (if ?b then _ else _) => destruct b
      end ].

Ltac frame := repeat frame_step.

Section FrameOfProgram.

Variable w : World.

Lemma skips_mfa_prompt_for_choice (question : string) (choices : list string) :
  skips_mfa (prompt_for_choice w question choices).
Proof. unfold prompt_for_choice. frame. Qed.

Lemma skips_mfa_askCluster (clusterArns : list string) :
  skips_mfa (askCluster w clusterArns).
Proof. unfold askCluster, prompt_for_choice. frame. Qed.

Lemma skips_mfa_resolveCluster : skips_mfa (resolveCluster w).
Proof.
  unfold resolveCluster, listClusters, aws. frame.
  apply skips_mfa_askCluster.
Qed.

Lemma skips_mfa_listTasks (cluster : option string) :
  skips_mfa (listTasks w cluster).
Proof. unfold listTasks, aws. frame. Qed.

Lemma skips_mfa_selectTask (cluster : option string) :
  skips_mfa (selectTask w cluster).
Proof.
  unfold selectTask. apply skips_mfa_bind; [apply skips_mfa_listTasks |].
  intros [tasks|]; [| frame].
  unfold pickTask, askTasks, prompt_for_choice. frame.
Qed.

Lemma skips_mfa_spawnAwsScript (cmd : string) (args : list (option string)) :
  skips_mfa (spawnAwsScript w cmd args).
Proof. unfold spawnAwsScript. frame. Qed.

Lemma skips_mfa_testConfig_finally (execFolder execPath : option string) :
  skips_mfa (testConfig_finally execFolder execPath).
Proof.
  unfold testConfig_finally, fs_existsSync, fs_rmdirSync. frame.
Qed.

Lemma skips_mfa_run_download (url dest : string) :
  skips_mfa (run_download w url dest).
Proof. unfold run_download. frame. Qed.

Lemma skips_mfa_testConfig (cluster : option string) (taskArn : string) :
  skips_mfa (testConfig w cluster taskArn).
Proof.
  intros st. unfold testConfig.
  destruct (skips_mfa_run_download testUrl (tempfile w) st) as [Hc [evs [Ht Hall]]].
  destruct (run_download w testUrl (tempfile w) st) as [[u|e] st1]; simpl in Hc, Ht.
  - match goal with |- context [try_finally ?b ?f st1] =>
      assert (Hs : skips_mfa (try_finally b f)) end.
    { apply skips_mfa_try_finally; [| apply skips_mfa_testConfig_finally].
      apply skips_mfa_bind; [unfold fs_chmodSync; frame | intro].
      apply skips_mfa_bind; [apply skips_mfa_spawnAwsScript | intro].
      frame. }
    destruct (Hs st1) as [Hc' [evs' [Ht' Hall']]].
    split; [congruence |].
    exists (evs ++ evs')%list. rewrite Ht', Ht, app_assoc. split; [reflexivity |].
    rewrite forallb_app, Hall, Hall'. reflexivity.
  - match goal with |- context [try_finally ?b ?f st1] =>
      assert (Hs : skips_mfa (try_finally b f)) end.
    { apply skips_mfa_try_finally; [frame | apply skips_mfa_testConfig_finally]. }
    destruct (Hs st1) as [Hc' [evs' [Ht' Hall']]].
    split; [congruence |].
    exists (evs ++ evs')%list. rewrite Ht', Ht, app_assoc. split; [reflexivity |].
    rewrite forallb_app, Hall, Hall'. reflexivity.
Qed.

Lemma skips_mfa_validate (cluster : option string) (taskArn : string) :
  skips_mfa (validate w cluster taskArn).
Proof.
  unfold validate. destruct (Js.default_to true (argv_test w)).
  - apply skips_mfa_testConfig.
  - frame.
Qed.

Lemma skips_mfa_connect (cluster : option string) (task : Task) (taskArn : string) :
  skips_mfa (connect w cluster task taskArn).
Proof.
  unfold connect, resolveContainer, askContainers, launch, askShell.
  apply skips_mfa_bind.
  - destruct (1 <? length (findExecuteCommandContainer task))%nat.
    + apply skips_mfa_bind; [apply skips_mfa_prompt_for_choice | intro; frame].
    + frame.
  - intro. apply skips_mfa_bind; [apply skips_mfa_prompt_for_choice | intro].
    apply skips_mfa_bind; [apply skips_mfa_spawnAwsScript | intro; frame].
Qed.

Lemma skips_mfa_authenticate : noMfaCode w -> skips_mfa (authenticate w).
Proof.
  intros H. unfold authenticate, askMFA, prompt_for_input.
  destruct H as [H | [H | H]]; rewrite H; simpl; frame.
Qed.

End FrameOfProgram.

(** C7.  When the operator gives no MFA code (an empty or absent
    answer, or MFA switched off), the whole run leaves the credential
    state as it found it and calls neither of the two operations of the
    credential exchange. *)
Theorem run_without_mfa_code_keeps_credentials (w : World) (st : State) :
  noMfaCode w ->
  credentials (snd (run w st)) = credentials st /\
  exists evs,
    trace (snd (run w st)) = (trace st ++ evs)%list /\
    forallb (fun e => negb (isMfaCall e)) evs = true.
Proof.
  intros H. revert st. fold (skips_mfa (run w)). unfold run.
  apply skips_mfa_try_catch; [| intro e; unfold console_log; frame].
  apply skips_mfa_bind; [now apply skips_mfa_authenticate | intro].
  apply skips_mfa_bind; [apply skips_mfa_resolveCluster | intro cluster].
  apply skips_mfa_bind; [apply skips_mfa_selectTask | intro sel].
  apply skips_mfa_bind; [apply skips_mfa_validate | intro].
  apply skips_mfa_bind; [apply skips_mfa_connect | intro].
  frame.
Qed.

Lemma run_without_mfa_code_keeps_credentials_witness :
  noMfaCode (Scenario.session [Scenario.replicaA]) /\
  credentials (snd (run (Scenario.session [Scenario.replicaA]) Scenario.ambient))
  = credentials Scenario.ambient /\
  exists evs,
    trace (snd (run (Scenario.session [Scenario.replicaA]) Scenario.ambient))
    = (trace Scenario.ambient ++ evs)%list /\
    forallb (fun e => negb (isMfaCall e)) evs = true.
Proof.
  assert (H : noMfaCode (Scenario.session [Scenario.replicaA]))
    by (right; right; reflexivity).
  split; [exact H |].
  exact (run_without_mfa_code_keeps_credentials
           (Scenario.session [Scenario.replicaA]) Scenario.ambient H).
Defined.

(** ** The credential exchange *)

Section Exchange.

Variable w : World.

(** The exchange reads the head of the device listing only. *)
Lemma mfaTokens_head_only (first : MFADevice) (others others' : list MFADevice)
    (code : string) (st : State) :
  mfaTokens (with_devices w (first :: others)) code st
  = mfaTokens (with_devices w (first :: others')) code st.
Proof. reflexivity. Qed.

(** Every call of [mfaTokens] shows in the trace. *)
Lemma mfaTokens_lists_devices (code : string) (st : State) :
  exists evs,
    trace (snd (mfaTokens w code st))
    = (trace st ++ EvAws ListMFADevices :: evs)%list.
Proof.
  unfold mfaTokens. async_unfold. simpl.
  destruct (iam_listMFADevices w (credentials st)) as [[| first others] | e]; simpl.
  - rewrite <- app_assoc. eexists. reflexivity.
  - destruct (sts_getSessionToken w (credentials st) 3600 (SerialNumber first) code)
      as [[c |] | e]; simpl.
    + rewrite <- app_assoc. eexists. reflexivity.
    + repeat rewrite <- app_assoc. eexists. reflexivity.
    + destruct (instanceofError e); simpl;
        repeat rewrite <- app_assoc; eexists; reflexivity.
  - destruct (instanceofError e); simpl;
      repeat rewrite <- app_assoc; eexists; reflexivity.
Qed.

Lemma mfaTokens_no_device (code : string) (st : State) :
  mfaTokens (with_devices w []) code st
  = (Rejected (Error "MFA failed"),
     {| credentials := credentials st;
        files := files st;
        trace := trace st ++ [EvAws ListMFADevices;
                              EvLog "MFA failed: No MFA devices found"] |}).
Proof.
  unfold mfaTokens. async_unfold. simpl.
  now rewrite <- app_assoc.
Qed.

End Exchange.

(** C9.  A successful refresh sends the serial number of the first
    listed device to the token service and installs the credentials it
    answers; the devices after the first change neither the outcome nor
    the state. *)
Theorem mfaTokens_uses_first_device
    (w : World) (first : MFADevice) (others : list MFADevice)
    (code : string) (c : StsCredentials) (st : State) :
  sts_getSessionToken w (credentials st) 3600 (SerialNumber first) code
  = Resolved (Some c) ->
  mfaTokens (with_devices w (first :: others)) code st
  = (Resolved tt,
     {| credentials := Some {| accessKeyId := AccessKeyId c;
                               secretAccessKey := SecretAccessKey c |};
        files := files st;
        trace := trace st
                 ++ [EvAws ListMFADevices;
                     EvAws (GetSessionToken 3600 (SerialNumber first) code)] |}) /\
  forall others',
    mfaTokens (with_devices w (first :: others')) code st
    = mfaTokens (with_devices w (first :: others)) code st.
Proof.
  intros H. split.
  - unfold mfaTokens. async_unfold. simpl. rewrite H. simpl.
    now rewrite <- app_assoc.
  - intros others'. apply mfaTokens_head_only.
Qed.

Lemma mfaTokens_uses_first_device_witness :
  sts_getSessionToken (Scenario.session []) (credentials Scenario.ambient) 3600
    "arn:aws:iam::123456789012:mfa/alice" "123456"
  = Resolved (Some {| AccessKeyId := "ASIA-arn:aws:iam::123456789012:mfa/alice";
                      SecretAccessKey := "session-secret" |}) /\
  mfaTokens
    (with_devices (Scenario.session [])
       [ {| SerialNumber := "arn:aws:iam::123456789012:mfa/alice" |};
         {| SerialNumber := "arn:aws:iam::123456789012:mfa/spare" |} ])
    "123456" Scenario.ambient
  = (Resolved tt,
     {| credentials :=
          Some {| accessKeyId := "ASIA-arn:aws:iam::123456789012:mfa/alice";
                  secretAccessKey := "session-secret" |};
        files := files Scenario.ambient;
        trace := trace Scenario.ambient
                 ++ [EvAws ListMFADevices;
                     EvAws (GetSessionToken 3600
                              "arn:aws:iam::123456789012:mfa/alice" "123456")] |}).
Proof.
  split; [reflexivity |].
  apply (mfaTokens_uses_first_device
           (Scenario.session [])
           {| SerialNumber := "arn:aws:iam::123456789012:mfa/alice" |}
           [ {| SerialNumber := "arn:aws:iam::123456789012:mfa/spare" |} ]
           "123456"
           {| AccessKeyId := "ASIA-arn:aws:iam::123456789012:mfa/alice";
              SecretAccessKey := "session-secret" |}
           Scenario.ambient).
  reflexivity.
Defined.

(** ** Task resolution *)

Section TaskChoices.

Lemma taskChoice_nonempty (t : Task) (label : string) :
  taskChoice t = Some label -> (label =? EmptyString) = false.
Proof.
  unfold taskChoice. destruct (taskDefinitionArn t) as [arn|]; [| discriminate].
  destruct (arn =? EmptyString); [discriminate |].
  intros H. injection H as <-.
  apply append_nonempty. discriminate.
Qed.

Lemma taskChoices_cons (t : Task) (ts : list Task) :
  taskChoices (t :: ts)
  = match taskChoice t with
    | Some label => label :: taskChoices ts
    | None => taskChoices ts
    end.
Proof.
  unfold taskChoices, keepTruthy. simpl.
  destruct (taskChoice t) as [label|] eqn:E; [| reflexivity].
  now rewrite (taskChoice_nonempty t label E).
Qed.

Lemma taskChoice_defined (t : Task) :
  Js.truthy (taskDefinitionArn t) = true -> exists label, taskChoice t = Some label.
Proof.
  unfold Js.truthy, taskChoice. destruct (taskDefinitionArn t) as [arn|]; [| discriminate].
  destruct (arn =? EmptyString); [discriminate |]. intros _. eexists. reflexivity.
Qed.

(** When every task has a task-definition reference, the choices and
    the tasks correspond position by position. *)
Lemma taskChoices_nth (tasks : list Task) (i : nat) :
  Forall (fun t => Js.truthy (taskDefinitionArn t) = true) tasks ->
  nth_error (taskChoices tasks) i
  = match nth_error tasks i with
    | Some t => taskChoice t
    | None => None
    end.
Proof.
  intros H. revert i. induction H as [| t ts Ht _ IH]; intros i.
  - destruct i; reflexivity.
  - rewrite taskChoices_cons.
    destruct (taskChoice_defined t Ht) as [label E]. rewrite E.
    destruct i; simpl; [now rewrite E | apply IH].
Qed.

End TaskChoices.

(** C1, as the program has it.  When every task has a task-definition
    reference, the task selected is the first one of the list whose
    display string equals the one the operator chose; it is the task at
    the chosen position exactly when no earlier task renders the same
    string. *)
Theorem pickTask_first_match
    (w : World) (tasks : list Task) (p : nat) (label : string) (st : State) :
  Forall (fun t => Js.truthy (taskDefinitionArn t) = true) tasks ->
  nth_error (taskChoices tasks) p = Some label ->
  prompt_list w "task" (taskChoices tasks) = Resolved label ->
  exists i t,
    i <= p /\
    nth_error tasks i = Some t /\
    taskChoice t = Some label /\
    (forall j u, j < i -> nth_error tasks j = Some u -> taskChoice u <> Some label) /\
    ((forall j, j < p -> nth_error (taskChoices tasks) j <> Some label) -> i = p) /\
    pickTask w tasks st
    = (match taskArn t with
       | Some arn =>
           if arn =? EmptyString then Rejected (Error "Selected task has no ARN")
           else Resolved (t, arn)
       | None => Rejected (Error "Selected task has no ARN")
       end,
       {| credentials := credentials st;
          files := files st;
          trace := trace st ++ [EvPrompt "task" (taskChoices tasks)] |}).
Proof.
  intros Hall Hp Hanswer.
  destruct (indexOf_first (taskChoices tasks) label p Hp)
    as [i [Hle [Hidx [Hnth Hmin]]]].
  pose proof (taskChoices_nth tasks i Hall) as Hi. rewrite Hnth in Hi.
  destruct (nth_error tasks i) as [t|] eqn:Et; [| discriminate].
  exists i, t.
  refine (conj _ (conj _ (conj _ (conj _ (conj _ _))))).
  - exact Hle.
  - exact Et.
  - now symmetry.
  - intros j u Hj Hu Hlabel. apply (Hmin j Hj).
    rewrite (taskChoices_nth tasks j Hall), Hu. exact Hlabel.
  - intros Hfirst. destruct (Nat.eq_dec i p) as [| Hne]; [assumption |].
    exfalso. apply (Hfirst i); [lia | exact Hnth].
  - unfold pickTask, askTasks. async_unfold. simpl.
    rewrite Hanswer. simpl. rewrite Hidx, at_index_of_nat, Et.
    destruct (taskArn t) as [arn|]; [destruct (arn =? EmptyString) |]; reflexivity.
Qed.

Lemma pickTask_first_match_witness :
  Forall (fun t => Js.truthy (taskDefinitionArn t) = true)
         [Scenario.mixed; Scenario.replicaB] /\
  nth_error (taskChoices [Scenario.mixed; Scenario.replicaB]) 1
  = Some "web:3 - (FARGATE)" /\
  prompt_list (Scenario.world None None None None None (Scenario.atTask 1)
                 (Saved "check-ecs-exec.sh"))
    "task" (taskChoices [Scenario.mixed; Scenario.replicaB])
  = Resolved "web:3 - (FARGATE)" /\
  exists i t,
    i <= 1 /\
    nth_error [Scenario.mixed; Scenario.replicaB] i = Some t /\
    taskChoice t = Some "web:3 - (FARGATE)" /\
    (forall j u, j < i -> nth_error [Scenario.mixed; Scenario.replicaB] j = Some u ->
                 taskChoice u <> Some "web:3 - (FARGATE)") /\
    ((forall j, j < 1 ->
                nth_error (taskChoices [Scenario.mixed; Scenario.replicaB]) j
                <> Some "web:3 - (FARGATE)") -> i = 1) /\
    pickTask (Scenario.world None None None None None (Scenario.atTask 1)
                (Saved "check-ecs-exec.sh"))
      [Scenario.mixed; Scenario.replicaB] Scenario.ambient
    = (match taskArn t with
       | Some arn =>
           if arn =? EmptyString then Rejected (Error "Selected task has no ARN")
           else Resolved (t, arn)
       | None => Rejected (Error "Selected task has no ARN")
       end,
       {| credentials := credentials Scenario.ambient;
          files := files Scenario.ambient;
          trace := trace Scenario.ambient
                   ++ [EvPrompt "task"
                         (taskChoices [Scenario.mixed; Scenario.replicaB])] |}).
Proof.
  assert (H1 : Forall (fun t => Js.truthy (taskDefinitionArn t) = true)
                      [Scenario.mixed; Scenario.replicaB])
    by (repeat constructor).
  assert (H2 : nth_error (taskChoices [Scenario.mixed; Scenario.replicaB]) 1
               = Some "web:3 - (FARGATE)") by reflexivity.
  assert (H3 : prompt_list (Scenario.world None None None None None (Scenario.atTask 1)
                              (Saved "check-ecs-exec.sh"))
                 "task" (taskChoices [Scenario.mixed; Scenario.replicaB])
               = Resolved "web:3 - (FARGATE)") by reflexivity.
  split; [exact H1 |]. split; [exact H2 |]. split; [exact H3 |].
  exact (pickTask_first_match
           (Scenario.world None None None None None (Scenario.atTask 1)
              (Saved "check-ecs-exec.sh"))
           [Scenario.mixed; Scenario.replicaB] 1 "web:3 - (FARGATE)"
           Scenario.ambient H1 H2 H3).
Defined.

(** C1, as stated, fails on two replicas of one task definition: the
    operator takes the second entry and the first task is selected. *)
Lemma chosen_position_is_selected_fails : ~ AsStated.chosen_position_is_selected.
Proof.
  intros H.
  destruct (H (Scenario.world None None None None None (Scenario.atTask 1)
                 (Saved "check-ecs-exec.sh"))
              [Scenario.replicaA; Scenario.replicaB] 1 "web:3 - (FARGATE)"
              Scenario.ambient eq_refl eq_refl) as [t [Ht Hsel]].
  simpl in Ht. injection Ht as <-.
  specialize (Hsel Scenario.replicaA
                "arn:aws:ecs:us-east-1:123456789012:task/prod/aaaa"
                _ eq_refl).
  discriminate Hsel.
Qed.

(** The same on a whole run: the session is opened into the first
    replica although the second entry was taken. *)
Lemma run_launches_first_replica :
  nth_error
    (trace (snd (run (Scenario.world (Some "prod") (Some EmptyString)
                        (Some [Scenario.prodArn])
                        (Some ["arn:aws:ecs:us-east-1:123456789012:task/prod/aaaa";
                               "arn:aws:ecs:us-east-1:123456789012:task/prod/bbbb"])
                        (Some [Scenario.replicaA; Scenario.replicaB])
                        (Scenario.atTask 1) (Saved "check-ecs-exec.sh"))
                   Scenario.ambient)))
    11
  = Some (EvSpawn "aws"
            (executeCommandArgs (Some Scenario.prodArn)
               "arn:aws:ecs:us-east-1:123456789012:task/prod/aaaa"
               (Some "app") "/bin/bash")
            "AKIAEXAMPLE" "ambient-secret").
Proof. vm_compute. reflexivity. Qed.

(** A task without a task-definition reference contributes no choice,
    so the choices after it move up by one against the tasks: taking the
    only entry shown, the label of the second task, selects the first
    task. *)
Lemma pickTask_after_unlabelled_task :
  taskChoices [Scenario.orphan; Scenario.replicaB] = ["web:3 - (FARGATE)"] /\
  fst (pickTask (Scenario.world None None None None None (Scenario.atTask 0)
                   (Saved "check-ecs-exec.sh"))
         [Scenario.orphan; Scenario.replicaB] Scenario.ambient)
  = Resolved (Scenario.orphan, "arn:aws:ecs:us-east-1:123456789012:task/prod/cccc").
Proof. split; reflexivity. Qed.

(** [src/index.js] renders every task and raises on the one without a
    task-definition reference. *)
Lemma IndexJs_taskChoices_unlabelled_task :
  exists e, IndexJs.taskChoices [Scenario.orphan; Scenario.replicaB] = Rejected e.
Proof. eexists. reflexivity. Qed.

(** ** Cluster resolution *)

(** A non-empty hint that equals an identifier of the list, or else a
    friendly name derived from it, resolves at once and without a prompt
    to the identifier at the first matching position; identifiers are
    tried before friendly names. *)
Lemma askCluster_hint_short_circuits
    (w : World) (clusterArns : list string) (hint : string) (st : State) :
  argv_cluster w = Some hint ->
  hint <> EmptyString ->
  In hint clusterArns \/ In hint (map clusterFriendlyName clusterArns) ->
  exists i arn,
    nth_error clusterArns i = Some arn /\
    askCluster w clusterArns st = (Resolved (Some arn), st) /\
    (In hint clusterArns ->
     arn = hint /\ forall j, j < i -> nth_error clusterArns j <> Some hint) /\
    (~ In hint clusterArns ->
     clusterFriendlyName arn = hint /\
     forall j a, j < i -> nth_error clusterArns j = Some a ->
                 clusterFriendlyName a <> hint).
Proof.
  intros Hargv Hne Hin.
  apply String.eqb_neq in Hne.
  unfold askCluster. rewrite Hargv, Hne. simpl.
  destruct (Js.includes clusterArns hint) eqn:Einc.
  - apply includes_In in Einc.
    destruct (In_nth_error _ _ Einc) as [p Hp].
    destruct (indexOf_first clusterArns hint p Hp) as [i [_ [Hidx [Hnth Hmin]]]].
    exists i, hint. rewrite Hidx, at_index_of_nat, Hnth.
    refine (conj eq_refl (conj eq_refl (conj _ _))).
    + intros _. split; [reflexivity | exact Hmin].
    + intros Hnot. contradiction.
  - assert (Hnot : ~ In hint clusterArns).
    { intros H. apply includes_In in H. congruence. }
    destruct Hin as [Hin | Hin]; [contradiction |].
    pose proof (proj2 (includes_In _ _) Hin) as Einc'. rewrite Einc'.
    destruct (In_nth_error _ _ Hin) as [p Hp].
    destruct (indexOf_first _ hint p Hp) as [i [_ [Hidx [Hnth Hmin]]]].
    rewrite Hidx, at_index_of_nat.
    rewrite nth_error_map in Hnth.
    destruct (nth_error clusterArns i) as [arn|] eqn:Earn; [| discriminate].
    simpl in Hnth. injection Hnth as Hname.
    exists i, arn.
    refine (conj Earn (conj eq_refl (conj _ _))).
    + intros H. contradiction.
    + intros _. split; [exact Hname |].
      intros j a Hj Ha Hfn. apply (Hmin j Hj).
      rewrite nth_error_map, Ha. simpl. now rewrite Hfn.
Qed.

(** *** Identifiers that name a cluster *)

Lemma strip_prefix_whole (lit s : string) :
  Js.strip_prefix lit s = Some EmptyString -> s = lit.
Proof.
  revert s. induction lit as [| a lit IH]; intros s H; simpl in H.
  - now injection H as ->.
  - destruct s as [| b s]; [discriminate |].
    destruct (Ascii.eqb a b) eqn:E; [| discriminate].
    apply Ascii.eqb_eq in E. subst b. f_equal. now apply IH.
Qed.

Lemma endsWith_tail (c : ascii) (s suffix : string) :
  endsWith s suffix = true -> endsWith (String c s) suffix = true.
Proof.
  intros H. cbn [endsWith]. rewrite H. apply orb_true_r.
Qed.

(** Nothing is left behind the last match only when the text ends with
    the literal. *)
Lemma after_last_nothing_left (lit s : string) :
  Js.after_last lit s = Some EmptyString -> endsWith s lit = true.
Proof.
  induction s as [| c s IH]; intros H; [discriminate |].
  cbn [Js.after_last] in H.
  destruct (if Js.is_line_terminator c then None else Js.after_last lit s)
    as [r |] eqn:E.
  - injection H as ->. destruct (Js.is_line_terminator c); [discriminate |].
    apply endsWith_tail. now apply IH.
  - apply strip_prefix_whole in H. rewrite H.
    destruct lit; cbn [endsWith]; now rewrite String.eqb_refl.
Qed.

(** The friendly name is empty only for the empty identifier and for
    one that ends at [cluster/]. *)
Lemma clusterFriendlyName_empty (clusterArn : string) :
  clusterFriendlyName clusterArn = EmptyString ->
  clusterArn = EmptyString \/ endsWith clusterArn "cluster/" = true.
Proof.
  unfold clusterFriendlyName, Js.replace_through.
  destruct clusterArn as [| c s]; [now left |].
  destruct (Js.is_line_terminator c); [discriminate |].
  destruct (Js.after_last "cluster/" s) as [r |] eqn:E; [| discriminate].
  intros ->. right. apply endsWith_tail.
  now apply after_last_nothing_left.
Qed.

Lemma namesCluster_named (clusterArn : string) :
  namesCluster clusterArn = true ->
  clusterArn <> EmptyString /\ clusterFriendlyName clusterArn <> EmptyString.
Proof.
  unfold namesCluster. intros H. apply andb_prop in H. destruct H as [H1 H2].
  apply negb_true_iff in H1. apply negb_true_iff in H2.
  split.
  - now apply String.eqb_neq.
  - intros Hf. apply clusterFriendlyName_empty in Hf. destruct Hf as [-> | Hf].
    + discriminate.
    + congruence.
Qed.

(** C3.  On a list of identifiers that name clusters, every hint the
    caller gives that equals an identifier of the list, or a friendly
    name derived from it, resolves at once: no prompt is shown, the
    state is left as it was, and what is returned is the identifier at
    the first matching position, identifiers being tried before friendly
    names. *)
Theorem askCluster_resolves_known_hint
    (w : World) (clusterArns : list string) (hint : string) (st : State) :
  forallb namesCluster clusterArns = true ->
  clusterArns <> [] ->
  argv_cluster w = Some hint ->
  In hint clusterArns \/ In hint (map clusterFriendlyName clusterArns) ->
  exists i arn,
    nth_error clusterArns i = Some arn /\
    askCluster w clusterArns st = (Resolved (Some arn), st) /\
    (In hint clusterArns ->
     arn = hint /\ forall j, j < i -> nth_error clusterArns j <> Some hint) /\
    (~ In hint clusterArns ->
     clusterFriendlyName arn = hint /\
     forall j a, j < i -> nth_error clusterArns j = Some a ->
                 clusterFriendlyName a <> hint).
Proof.
  intros Hnamed _ Hargv Hin.
  rewrite forallb_forall in Hnamed.
  apply askCluster_hint_short_circuits; try assumption.
  destruct Hin as [Hin | Hin].
  - now apply (namesCluster_named hint (Hnamed hint Hin)).
  - apply in_map_iff in Hin. destruct Hin as [a [<- Ha]].
    now apply (namesCluster_named a (Hnamed a Ha)).
Qed.

Lemma askCluster_resolves_known_hint_witness :
  forallb namesCluster
    ["arn:aws:ecs:us-east-1:123456789012:cluster/dev"; Scenario.prodArn] = true /\
  argv_cluster (Scenario.session []) = Some "prod" /\
  (In "prod" ["arn:aws:ecs:us-east-1:123456789012:cluster/dev"; Scenario.prodArn] \/
   In "prod" (map clusterFriendlyName
                ["arn:aws:ecs:us-east-1:123456789012:cluster/dev"; Scenario.prodArn])) /\
  exists i arn,
    nth_error ["arn:aws:ecs:us-east-1:123456789012:cluster/dev"; Scenario.prodArn] i
    = Some arn /\
    askCluster (Scenario.session [])
      ["arn:aws:ecs:us-east-1:123456789012:cluster/dev"; Scenario.prodArn]
      Scenario.ambient
    = (Resolved (Some arn), Scenario.ambient).
Proof.
  assert (H0 : forallb namesCluster
                 ["arn:aws:ecs:us-east-1:123456789012:cluster/dev"; Scenario.prodArn]
               = true) by reflexivity.
  assert (H1 : argv_cluster (Scenario.session []) = Some "prod") by reflexivity.
  assert (H2 : ["arn:aws:ecs:us-east-1:123456789012:cluster/dev"; Scenario.prodArn]
               <> []) by discriminate.
  assert (H3 : In "prod" ["arn:aws:ecs:us-east-1:123456789012:cluster/dev";
                          Scenario.prodArn] \/
               In "prod" (map clusterFriendlyName
                            ["arn:aws:ecs:us-east-1:123456789012:cluster/dev";
                             Scenario.prodArn]))
    by (right; simpl; tauto).
  split; [exact H0 |]. split; [exact H1 |]. split; [exact H3 |].
  destruct (askCluster_resolves_known_hint
              (Scenario.session [])
              ["arn:aws:ecs:us-east-1:123456789012:cluster/dev"; Scenario.prodArn]
              "prod" Scenario.ambient H0 H2 H1 H3) as [i [arn [Hn [Hask _]]]].
  exists i, arn. split; assumption.
Defined.

(** The hint given as a full identifier resolves to itself. *)
Example askCluster_by_identifier :
  askCluster
    (Scenario.world (Some Scenario.prodArn) None None None None (Scenario.atTask 0)
       (Saved "check-ecs-exec.sh"))
    ["arn:aws:ecs:us-east-1:123456789012:cluster/dev"; Scenario.prodArn]
    Scenario.ambient
  = (Resolved (Some Scenario.prodArn), Scenario.ambient).
Proof. reflexivity. Qed.

(** [src/index.js] resolves every such hint on every list. *)
Lemma IndexJs_askCluster_hint_short_circuits
    (w : World) (clusterArns : list string) (hint : string) (st : State) :
  argv_cluster w = Some hint ->
  In hint clusterArns \/ In hint (map clusterFriendlyName clusterArns) ->
  exists arn,
    In arn clusterArns /\
    IndexJs.askCluster w clusterArns st = (Resolved (Some arn), st).
Proof.
  intros Hargv Hin. unfold IndexJs.askCluster. rewrite Hargv.
  destruct (Js.includes clusterArns hint) eqn:Einc.
  - apply includes_In in Einc.
    destruct (In_nth_error _ _ Einc) as [p Hp].
    destruct (indexOf_first clusterArns hint p Hp) as [i [_ [Hidx [Hnth _]]]].
    exists hint. rewrite Hidx, at_index_of_nat, Hnth. now split.
  - destruct Hin as [Hin | Hin].
    + apply includes_In in Hin. congruence.
    + pose proof (proj2 (includes_In _ _) Hin) as Einc'. rewrite Einc'.
      destruct (In_nth_error _ _ Hin) as [p Hp].
      destruct (indexOf_first _ hint p Hp) as [i [_ [Hidx [Hnth _]]]].
      rewrite Hidx, at_index_of_nat.
      rewrite nth_error_map in Hnth.
      destruct (nth_error clusterArns i) as [arn |] eqn:Earn; [| discriminate].
      exists arn. split; [eapply nth_error_In; exact Earn | reflexivity].
Qed.

(** Off the lists of the service, against an identifier that ends at
    [cluster/] and so has the empty friendly name, [src/index.ts] passes
    the empty hint over and shows the prompt. *)
Example askCluster_empty_hint_prompts :
  namesCluster "arn:aws:ecs:us-east-1:123456789012:cluster/" = false /\
  askCluster
    (Scenario.world (Some EmptyString) None None None None (Scenario.atTask 0)
       (Saved "check-ecs-exec.sh"))
    ["arn:aws:ecs:us-east-1:123456789012:cluster/"] Scenario.ambient
  = (Resolved (Some EmptyString),
     logged Scenario.ambient [EvPrompt "cluster" [EmptyString]]).
Proof. split; reflexivity. Qed.

(** The scenario of the specification: one cluster, hint ["prod"]. *)
Example askCluster_prod :
  askCluster (Scenario.session []) [Scenario.prodArn] Scenario.ambient
  = (Resolved (Some Scenario.prodArn), Scenario.ambient).
Proof. reflexivity. Qed.

(** Without a matching hint the prompt shows the friendly names, and
    the friendly name taken is what comes back. *)
Example askCluster_prompt :
  askCluster (Scenario.world (Some "staging") None None None None
                (Scenario.atTask 0) (Saved "check-ecs-exec.sh"))
    [Scenario.prodArn] Scenario.ambient
  = (Resolved (Some "prod"),
     {| credentials := credentials Scenario.ambient;
        files := files Scenario.ambient;
        trace := [EvPrompt "cluster" ["prod"]] |}).
Proof. reflexivity. Qed.

(** [src/index.js] has no guard on the hint and resolves the empty one
    too. *)
Lemma IndexJs_askCluster_empty_hint :
  IndexJs.askCluster
    (Scenario.world (Some EmptyString) None None None None
       (Scenario.atTask 0) (Saved "check-ecs-exec.sh"))
    ["arn:aws:ecs:us-east-1:123456789012:cluster/"] Scenario.ambient
  = (Resolved (Some "arn:aws:ecs:us-east-1:123456789012:cluster/"), Scenario.ambient).
Proof. reflexivity. Qed.

(** ** Task listing *)

(** C6, as the program has it.  With both lists present, [listTasks]
    answers exactly the described tasks whose [enableExecuteCommand] is
    true, in their order (the empty sequence for an empty description).
    With the list of task ARNs or the described tasks absent it answers
    [undefined], raising nothing itself, and [run] then fails with
    "No tasks found in cluster"; a failing call rejects. *)
Theorem listTasks_outcome (w : World) (cluster : option string) (st : State) :
  match ecs_listTasks w (credentials st) cluster with
  | Resolved (Some taskArns) =>
      match ecs_describeTasks w (credentials st) cluster taskArns with
      | Resolved (Some tasks) =>
          exists kept,
            keeps enabled tasks kept /\
            fst (listTasks w cluster st) = Resolved (Some kept)
      | Resolved None =>
          fst (listTasks w cluster st) = Resolved None /\
          fst (selectTask w cluster st) = Rejected (Error "No tasks found in cluster")
      | Rejected e => fst (listTasks w cluster st) = Rejected e
      end
  | Resolved None =>
      listTasks w cluster st
      = (Resolved None,
         {| credentials := credentials st;
            files := files st;
            trace := trace st ++ [EvAws (ListTasks cluster "RUNNING")] |}) /\
      fst (selectTask w cluster st) = Rejected (Error "No tasks found in cluster")
  | Rejected e => fst (listTasks w cluster st) = Rejected e
  end.
Proof.
  unfold selectTask, listTasks. async_unfold. simpl.
  destruct (ecs_listTasks w (credentials st) cluster) as [[taskArns|]|e]; simpl.
  - destruct (ecs_describeTasks w (credentials st) cluster taskArns)
      as [[tasks|]|e]; simpl.
    + eexists. split; [| reflexivity].
      apply filter_keeps. exact enableExecuteCommand_enabled.
    + split; reflexivity.
    + reflexivity.
  - split; reflexivity.
  - reflexivity.
Qed.

(** An empty description comes out as the empty sequence. *)
Lemma listTasks_empty_description
    (w : World) (cluster : option string) (taskArns : list string) (st : State) :
  ecs_listTasks w (credentials st) cluster = Resolved (Some taskArns) ->
  ecs_describeTasks w (credentials st) cluster taskArns = Resolved (Some []) ->
  fst (listTasks w cluster st) = Resolved (Some []).
Proof.
  intros H1 H2. unfold listTasks. async_unfold. simpl.
  rewrite H1. simpl. rewrite H2. reflexivity.
Qed.

(** The scenario of the specification: of a disabled and an enabled
    task only the second is listed. *)
Example listTasks_mixed :
  fst (listTasks (Scenario.session [Scenario.disabled; Scenario.replicaA])
         (Some Scenario.prodArn) Scenario.ambient)
  = Resolved (Some [Scenario.replicaA]).
Proof. reflexivity. Qed.

(** C6, as stated, fails when the list of task ARNs is absent: what
    comes out is [undefined], not the empty sequence. *)
Lemma absent_lists_surface_empty_fails : ~ AsStated.absent_lists_surface_empty.
Proof.
  intros H.
  specialize (H (Scenario.world None None None None None (Scenario.atTask 0)
                   (Saved "check-ecs-exec.sh"))
                (Some Scenario.prodArn) Scenario.ambient).
  assert (Habs : fst (listTasks
                        (Scenario.world None None None None None (Scenario.atTask 0)
                           (Saved "check-ecs-exec.sh"))
                        (Some Scenario.prodArn) Scenario.ambient)
                 = Resolved (Some [])).
  { apply H. left. reflexivity. }
  vm_compute in Habs. discriminate Habs.
Qed.

(** [src/index.js] filters the described tasks without a guard. *)
Lemma IndexJs_filterDescribed_absent :
  exists e, IndexJs.filterDescribed None = Rejected e.
Proof. eexists. reflexivity. Qed.

(** [src/index.js] has no guard on [task.containers]. *)
Lemma IndexJs_findExecuteCommandContainer_no_containers
    (arn def lt : option string) (en : option bool) :
  exists e,
    IndexJs.findExecuteCommandContainer
      {| taskArn := arn; taskDefinitionArn := def; launchType := lt;
         enableExecuteCommand := en; containers := None |} = Rejected e.
Proof. eexists. reflexivity. Qed.

(** ** The external validator *)

Section Validator.

Lemma prefix_append (a b : string) : String.prefix a (a ++ b) = true.
Proof.
  induction a as [| c a IH]; simpl.
  - now destruct b.
  - destruct (Ascii.ascii_dec c c) as [_ | Hne]; [exact IH | congruence].
Qed.

Lemma within_self (dir : string) : within dir dir = true.
Proof. unfold within. now rewrite String.eqb_refl. Qed.

Lemma within_path_join (dir file : string) : within dir (path_join dir file) = true.
Proof.
  unfold within, path_join.
  replace (dir ++ "/" ++ file) with ((dir ++ "/") ++ file).
  - rewrite prefix_append. apply orb_true_r.
  - induction dir as [| c dir IH]; simpl; [reflexivity | now rewrite IH].
Qed.

Lemma path_join_nonempty (dir file : string) :
  (path_join dir file =? EmptyString) = false.
Proof. unfold path_join. apply append_nonempty. discriminate. Qed.

Lemma existsIn_head (p : string) (fs : list string) : existsIn (p :: fs) p = true.
Proof. unfold existsIn. simpl. now rewrite String.eqb_refl. Qed.

Lemma filter_absent (dir : string) (fs : list string) :
  absent dir fs -> filter (fun p => negb (within dir p)) fs = fs.
Proof.
  induction fs as [| p fs IH]; intros H; simpl; [reflexivity |].
  rewrite (H p (or_introl eq_refl)). simpl. f_equal.
  apply IH. intros q Hq. apply H. now right.
Qed.

Variable w : World.

(** What the [finally] block does once the script is on disk. *)
Lemma testConfig_finally_removes (dir file : string) (st : State) :
  dir <> EmptyString ->
  existsIn (files st) (path_join dir file) = true ->
  testConfig_finally (Some dir) (Some (path_join dir file)) st
  = (Resolved tt,
     {| credentials := credentials st;
        files := filter (fun p => negb (within dir p)) (files st);
        trace := trace st ++ [EvRmdir dir] |}).
Proof.
  intros Hne Hex. apply String.eqb_neq in Hne.
  unfold testConfig_finally. rewrite Hne, path_join_nonempty.
  async_unfold. simpl. rewrite Hex. reflexivity.
Qed.

(** What it does while [execPath] is still [undefined]: nothing. *)
Lemma testConfig_finally_unassigned (dir : string) (st : State) :
  testConfig_finally (Some dir) None st = (Resolved tt, st).
Proof. reflexivity. Qed.

Lemma files_spawnAwsScript (cmd : string) (args : list (option string)) (st : State) :
  files (snd (spawnAwsScript w cmd args st)) = files st.
Proof.
  unfold spawnAwsScript. async_unfold. simpl.
  destruct (credentials st); [| reflexivity].
  destruct (child_process w cmd args); reflexivity.
Qed.

(** The body of the [try] after the download leaves the files alone. *)
Lemma files_check (path : string) (args : list (option string)) (st : State) :
  files (snd ((fs_chmodSync path "755" ;;;
               spawnAwsScript w path args ;;;
               ret tt) st)) = files st.
Proof.
  unfold fs_chmodSync, bind, getFiles, emit, throw, ret. simpl.
  destruct (existsIn (files st) path); [| reflexivity].
  match goal with |- context [spawnAwsScript w path args ?s] =>
    pose proof (files_spawnAwsScript path args s) as H;
    destruct (spawnAwsScript w path args s) as [[r|e] st2] end;
    simpl in *; exact H.
Qed.

End Validator.

Arguments testConfig_finally : simpl never.

(** C8, as the program has it.  After a download that saved the script
    under its expected name, the download location and all beneath it
    are gone when [testConfig] is over, whether the script ran, could
    not be spawned or was refused for want of credentials; after a
    download that failed without creating the location nothing is left
    either.  The files are then those from before the call. *)
Theorem testConfig_removes_download_location
    (w : World) (cluster : option string) (taskArn : string) (st : State) :
  tempfile w <> EmptyString ->
  absent (tempfile w) (files st) ->
  download w testUrl (tempfile w) = Saved "check-ecs-exec.sh" \/
  (exists e, download w testUrl (tempfile w) = DownloadFailed e false) ->
  files (snd (testConfig w cluster taskArn st)) = files st /\
  absent (tempfile w) (files (snd (testConfig w cluster taskArn st))).
Proof.
  intros Hne Habs Hdl.
  assert (Hfiles : files (snd (testConfig w cluster taskArn st)) = files st).
  { unfold testConfig, run_download.
    destruct Hdl as [Hdl | [e Hdl]].
    - unfold bind at 1 2. unfold emit at 1, getFiles at 1. simpl.
      rewrite Hdl. unfold setFiles at 1. simpl.
      unfold try_finally.
      match goal with |- context [bind ?m ?k ?s] =>
        pose proof (files_check w (path_join (tempfile w) "check-ecs-exec.sh")
                      [cluster; Some taskArn] s) as Hbody;
        destruct (bind m k s) as [r st2] end.
      simpl in Hbody.
      rewrite testConfig_finally_removes;
        [| exact Hne | rewrite Hbody; apply existsIn_head].
      simpl. rewrite Hbody. simpl.
      rewrite within_path_join, within_self. simpl.
      now apply filter_absent.
    - unfold bind at 1 2. unfold emit at 1, getFiles at 1. simpl.
      rewrite Hdl. reflexivity. }
  split; [exact Hfiles |]. rewrite Hfiles. exact Habs.
Qed.

Lemma testConfig_removes_download_location_witness :
  tempfile (Scenario.session []) <> EmptyString /\
  absent (tempfile (Scenario.session [])) (files Scenario.ambient) /\
  files (snd (testConfig (Scenario.session []) (Some Scenario.prodArn)
                "arn:aws:ecs:us-east-1:123456789012:task/prod/aaaa" Scenario.ambient))
  = files Scenario.ambient.
Proof.
  assert (H1 : tempfile (Scenario.session []) <> EmptyString) by discriminate.
  assert (H2 : absent (tempfile (Scenario.session [])) (files Scenario.ambient)).
  { intros p [<- | []]. reflexivity. }
  split; [exact H1 |]. split; [exact H2 |].
  apply (testConfig_removes_download_location
           (Scenario.session []) (Some Scenario.prodArn)
           "arn:aws:ecs:us-east-1:123456789012:task/prod/aaaa" Scenario.ambient H1 H2).
  left. reflexivity.
Defined.

(** C8, as stated, fails when the download creates the location and
    then fails: [execPath] is still [undefined] in the [finally] block
    and the location stays. *)
Lemma download_location_always_removed_fails :
  ~ AsStated.download_location_always_removed.
Proof.
  intros H.
  specialize (H (Scenario.world None None None None None (Scenario.atTask 0)
                   (DownloadFailed (Error "ENOSPC: no space left on device, write") true))
                (Some Scenario.prodArn)
                "arn:aws:ecs:us-east-1:123456789012:task/prod/aaaa"
                Scenario.ambient).
  assert (Hpre : absent "/tmp/3f0c" (files Scenario.ambient)).
  { intros p [<- | []]. reflexivity. }
  specialize (H Hpre "/tmp/3f0c" (or_introl eq_refl)).
  vm_compute in H. discriminate H.
Qed.

(** The location also stays when the script was saved under another
    name: [chmodSync] raises and the guard of the [finally] block finds
    no script. *)
Example testConfig_other_file_name :
  testConfig (Scenario.world None None None None None (Scenario.atTask 0)
                (Saved "check-ecs-exec.sh.txt"))
    (Some Scenario.prodArn) "arn:aws:ecs:us-east-1:123456789012:task/prod/aaaa"
    Scenario.ambient
  = (Rejected (Error "ENOENT: no such file or directory, chmod '/tmp/3f0c/check-ecs-exec.sh'"),
     {| credentials := credentials Scenario.ambient;
        files := ["/tmp/3f0c/check-ecs-exec.sh.txt"; "/tmp/3f0c"; "/tmp"];
        trace := [EvDownload testUrl "/tmp/3f0c"] |}).
Proof. reflexivity. Qed.

(** ** Friendly names and the scenarios of the specification *)

Example clusterFriendlyName_arn :
  clusterFriendlyName "arn:aws:ecs:us-east-1:123456789012:cluster/prod" = "prod".
Proof. reflexivity. Qed.

Example clusterFriendlyName_plain : clusterFriendlyName "prod" = "prod".
Proof. reflexivity. Qed.

(** The group [(.+)] needs at least one character before the literal. *)
Example clusterFriendlyName_needs_a_prefix :
  clusterFriendlyName "cluster/prod" = "cluster/prod".
Proof. reflexivity. Qed.

(** The group is greedy: the last occurrence of the literal counts. *)
Example clusterFriendlyName_greedy :
  clusterFriendlyName "a/cluster/b/cluster/c" = "c".
Proof. reflexivity. Qed.

Example taskDefFriendlyName_arn :
  taskDefFriendlyName Scenario.webDef = "web:3".
Proof. reflexivity. Qed.

Example taskChoice_without_launch_type :
  taskChoice {| taskArn := None; taskDefinitionArn := Some Scenario.webDef;
                launchType := None; enableExecuteCommand := None;
                containers := None |}
  = Some "web:3 - (undefined)".
Proof. reflexivity. Qed.

(** One eligible container: it is selected without a prompt. *)
Example resolveContainer_app :
  resolveContainer (Scenario.session [Scenario.replicaA]) Scenario.replicaA
    Scenario.ambient
  = (Resolved (Some "app"), Scenario.ambient).
Proof. reflexivity. Qed.

(** Two eligible containers: the prompt offers both names. *)
Example resolveContainer_mixed :
  resolveContainer (Scenario.session [Scenario.mixed]) Scenario.mixed Scenario.ambient
  = (Resolved (Some "container"),
     {| credentials := credentials Scenario.ambient;
        files := files Scenario.ambient;
        trace := [EvPrompt "container" ["container"; "app"]] |}).
Proof. reflexivity. Qed.

(** A complete session: exit value [undefined], the download location
    removed, [aws] launched last. *)
Example run_session :
  fst (run (Scenario.session [Scenario.replicaA]) Scenario.ambient) = Resolved None /\
  files (snd (run (Scenario.session [Scenario.replicaA]) Scenario.ambient)) = ["/tmp"] /\
  nth_error
    (trace (snd (run (Scenario.session [Scenario.replicaA]) Scenario.ambient))) 11
  = Some (EvSpawn "aws"
            (executeCommandArgs (Some Scenario.prodArn)
               "arn:aws:ecs:us-east-1:123456789012:task/prod/aaaa"
               (Some "app") "/bin/bash")
            "AKIAEXAMPLE" "ambient-secret").
Proof. repeat split; vm_compute; reflexivity. Qed.

(** Without credentials the validator is refused and the run ends with
    exit value [1]; nothing was spawned and the download is removed. *)
Example run_unauthenticated :
  fst (run (Scenario.session [Scenario.replicaA]) Scenario.unauthenticated)
  = Resolved (Some 1%Z) /\
  existsb isSpawn
    (trace (snd (run (Scenario.session [Scenario.replicaA]) Scenario.unauthenticated)))
  = false /\
  files (snd (run (Scenario.session [Scenario.replicaA]) Scenario.unauthenticated))
  = ["/tmp"].
Proof. repeat split; vm_compute; reflexivity. Qed.

(** * Further properties *)

(** ** Friendly names *)

Section FriendlyNames.

Lemma strip_prefix_sound (p s r : string) :
  Js.strip_prefix p s = Some r -> s = p ++ r.
Proof.
  revert s. induction p as [| a p IH]; intros s H; simpl in *.
  - now injection H as ->.
  - destruct s as [| b s]; [discriminate |].
    destruct (Ascii.eqb a b) eqn:E; [| discriminate].
    apply Ascii.eqb_eq in E. subst b. f_equal. now apply IH.
Qed.

Lemma all_chars_app (p : ascii -> bool) (a b : string) :
  all_chars p (a ++ b) = all_chars p a && all_chars p b.
Proof.
  induction a as [| c a IH]; simpl; [reflexivity |].
  now rewrite IH, andb_assoc.
Qed.

(** A literal with a slash does not start a string without one. *)
Lemma strip_prefix_needs_slash (lit s : string) :
  all_chars notSlash lit = false ->
  all_chars notSlash s = true ->
  Js.strip_prefix lit s = None.
Proof.
  intros Hlit Hs. destruct (Js.strip_prefix lit s) as [r |] eqn:E; [| reflexivity].
  apply strip_prefix_sound in E. subst s.
  rewrite all_chars_app, Hlit in Hs. discriminate.
Qed.

Lemma after_last_needs_slash (lit s : string) :
  all_chars notSlash lit = false ->
  all_chars notSlash s = true ->
  Js.after_last lit s = None.
Proof.
  intros Hlit. induction s as [| c s IH]; intros Hs; [reflexivity |].
  simpl in Hs. apply andb_prop in Hs. destruct Hs as [Hc Hs].
  cbn [Js.after_last]. rewrite (IH Hs).
  assert (Hcs : all_chars notSlash (String c s) = true)
    by (simpl; now rewrite Hc, Hs).
  rewrite (strip_prefix_needs_slash lit (String c s) Hlit Hcs).
  now destruct (Js.is_line_terminator c).
Qed.

(** A text without a slash is its own friendly name. *)
Lemma replace_through_plain (lit s : string) :
  all_chars notSlash lit = false ->
  all_chars notSlash s = true ->
  Js.replace_through lit s = s.
Proof.
  intros Hlit Hs. destruct s as [| c s]; [reflexivity |].
  simpl in Hs. apply andb_prop in Hs. destruct Hs as [_ Hs].
  unfold Js.replace_through.
  rewrite (after_last_needs_slash lit s Hlit Hs).
  now destruct (Js.is_line_terminator c).
Qed.

(** Characters matched by the dot in front of a match keep it. *)
Lemma after_last_behind (lit pre s r : string) :
  all_chars notLineTerminator pre = true ->
  Js.after_last lit s = Some r ->
  Js.after_last lit (pre ++ s) = Some r.
Proof.
  intros Hpre Hs. induction pre as [| c pre IH]; [exact Hs |].
  simpl in Hpre. apply andb_prop in Hpre. destruct Hpre as [Hc Hpre].
  unfold notLineTerminator in Hc. apply negb_true_iff in Hc.
  cbn [append Js.after_last]. rewrite Hc, (IH Hpre). reflexivity.
Qed.

Lemma replace_through_behind (lit pre s r : string) :
  pre <> EmptyString ->
  all_chars notLineTerminator pre = true ->
  Js.after_last lit s = Some r ->
  Js.replace_through lit (pre ++ s) = r.
Proof.
  intros Hne Hpre Hs. destruct pre as [| c pre]; [congruence |].
  simpl in Hpre. apply andb_prop in Hpre. destruct Hpre as [Hc Hpre].
  unfold notLineTerminator in Hc. apply negb_true_iff in Hc.
  cbn [append Js.replace_through]. rewrite Hc.
  now rewrite (after_last_behind lit pre s r Hpre Hs).
Qed.

(** No match is found across characters matched by the dot once none
    is found behind them. *)
Lemma after_last_none_behind (lit pre s : string) :
  all_chars notLineTerminator pre = true ->
  Js.after_last lit (pre ++ s) = None ->
  Js.after_last lit s = None.
Proof.
  intros Hpre. induction pre as [| c pre IH]; intros H; [exact H |].
  simpl in Hpre. apply andb_prop in Hpre. destruct Hpre as [Hc Hpre].
  unfold notLineTerminator in Hc. apply negb_true_iff in Hc.
  cbn [append Js.after_last] in H. rewrite Hc in H.
  destruct (Js.after_last lit (pre ++ s)) eqn:E; [discriminate |].
  now apply IH.
Qed.

(** What is left behind the last match holds no further match. *)
Lemma after_last_settled (lit s r : string) :
  lit <> EmptyString ->
  all_chars notLineTerminator lit = true ->
  Js.after_last lit s = Some r ->
  Js.replace_through lit r = r.
Proof.
  intros Hne Hlit. induction s as [| c s IH]; intros H; [discriminate |].
  cbn [Js.after_last] in H.
  destruct (if Js.is_line_terminator c then None else Js.after_last lit s)
    as [r' |] eqn:E.
  - injection H as ->. destruct (Js.is_line_terminator c); [discriminate |].
    now apply IH.
  - pose proof (strip_prefix_sound _ _ _ H) as Hs.
    destruct lit as [| a lit']; [congruence |].
    simpl in Hs. injection Hs as -> ->.
    simpl in Hlit. apply andb_prop in Hlit. destruct Hlit as [Ha Hlit'].
    unfold notLineTerminator in Ha. apply negb_true_iff in Ha.
    rewrite Ha in E.
    pose proof (after_last_none_behind _ lit' r Hlit' E) as Hr.
    destruct r as [| d r'']; [reflexivity |].
    cbn [Js.after_last] in Hr. unfold Js.replace_through.
    destruct (Js.is_line_terminator d); [reflexivity |].
    destruct (Js.after_last (String a lit') r''); [discriminate | reflexivity].
Qed.

Lemma replace_through_idempotent (lit s : string) :
  lit <> EmptyString ->
  all_chars notLineTerminator lit = true ->
  Js.replace_through lit (Js.replace_through lit s) = Js.replace_through lit s.
Proof.
  intros Hne Hlit. destruct s as [| c s]; [reflexivity |].
  destruct (Js.is_line_terminator c) eqn:Ec.
  - assert (H : Js.replace_through lit (String c s) = String c s)
      by (unfold Js.replace_through; now rewrite Ec).
    rewrite H. exact H.
  - destruct (Js.after_last lit s) as [r |] eqn:E.
    + assert (H : Js.replace_through lit (String c s) = r)
        by (unfold Js.replace_through; now rewrite Ec, E).
      rewrite H. now apply (after_last_settled lit s r).
    + assert (H : Js.replace_through lit (String c s) = String c s)
        by (unfold Js.replace_through; now rewrite Ec, E).
      rewrite H. exact H.
Qed.

Lemma after_last_suffix (lit s r : string) :
  Js.after_last lit s = Some r -> exists front, s = front ++ r.
Proof.
  induction s as [| c s IH]; intros H; [discriminate |].
  cbn [Js.after_last] in H.
  destruct (if Js.is_line_terminator c then None else Js.after_last lit s)
    as [r' |] eqn:E.
  - injection H as ->. destruct (Js.is_line_terminator c); [discriminate |].
    destruct (IH E) as [front ->]. now exists (String c front).
  - exists lit. now apply strip_prefix_sound.
Qed.

Lemma replace_through_suffix (lit s : string) :
  exists front, s = front ++ Js.replace_through lit s.
Proof.
  destruct s as [| c s]; [now exists EmptyString |].
  unfold Js.replace_through.
  destruct (Js.is_line_terminator c); [now exists EmptyString |].
  destruct (Js.after_last lit s) as [r |] eqn:E; [| now exists EmptyString].
  destruct (after_last_suffix lit s r E) as [front ->].
  now exists (String c front).
Qed.

End FriendlyNames.

(** X1.  The friendly name of a cluster ARN is its name: for a
    non-empty prefix without line terminators and a name without a
    slash, [clusterFriendlyName (prefix ++ "cluster/" ++ name)] is
    [name], whatever the prefix holds. *)
Theorem clusterFriendlyName_of_arn (front name : string) :
  front <> EmptyString ->
  all_chars notLineTerminator front = true ->
  all_chars notSlash name = true ->
  clusterFriendlyName (front ++ "cluster/" ++ name) = name.
Proof.
  intros Hne Hfront Hname. unfold clusterFriendlyName.
  apply replace_through_behind; [assumption | assumption |].
  pose proof (after_last_needs_slash "cluster/" name eq_refl Hname) as Hnone.
  cbn. rewrite Hnone. reflexivity.
Qed.

Lemma clusterFriendlyName_of_arn_witness :
  "arn:aws:ecs:us-east-1:123456789012:" <> EmptyString /\
  all_chars notLineTerminator "arn:aws:ecs:us-east-1:123456789012:" = true /\
  all_chars notSlash "prod" = true /\
  clusterFriendlyName ("arn:aws:ecs:us-east-1:123456789012:" ++ "cluster/" ++ "prod")
  = "prod".
Proof.
  split; [discriminate |]. split; [reflexivity |]. split; [reflexivity |].
  apply (clusterFriendlyName_of_arn "arn:aws:ecs:us-east-1:123456789012:" "prod").
  - discriminate.
  - reflexivity.
  - reflexivity.
Defined.

(** X2.  The friendly name of a task-definition ARN is what follows
    [task-definition/]: for a non-empty prefix without line terminators
    and a family and revision without a slash,
    [taskDefFriendlyName (prefix ++ "task-definition/" ++ name)] is
    [name]. *)
Theorem taskDefFriendlyName_of_arn (front name : string) :
  front <> EmptyString ->
  all_chars notLineTerminator front = true ->
  all_chars notSlash name = true ->
  taskDefFriendlyName (front ++ "task-definition/" ++ name) = name.
Proof.
  intros Hne Hfront Hname. unfold taskDefFriendlyName.
  apply replace_through_behind; [assumption | assumption |].
  pose proof (after_last_needs_slash "task-definition/" name eq_refl Hname) as Hnone.
  cbn. rewrite Hnone. reflexivity.
Qed.

Lemma taskDefFriendlyName_of_arn_witness :
  "arn:aws:ecs:us-east-1:123456789012:" <> EmptyString /\
  all_chars notLineTerminator "arn:aws:ecs:us-east-1:123456789012:" = true /\
  all_chars notSlash "web:3" = true /\
  taskDefFriendlyName
    ("arn:aws:ecs:us-east-1:123456789012:" ++ "task-definition/" ++ "web:3")
  = "web:3".
Proof.
  split; [discriminate |]. split; [reflexivity |]. split; [reflexivity |].
  apply (taskDefFriendlyName_of_arn "arn:aws:ecs:us-east-1:123456789012:" "web:3").
  - discriminate.
  - reflexivity.
  - reflexivity.
Defined.

(** X3.  Friendly names are stable: each of the two functions returns
    a suffix of its argument, returns a text without a slash as it is,
    and applied to its own result changes nothing. *)
Theorem friendly_names_stable (s : string) :
  (exists front, s = front ++ clusterFriendlyName s) /\
  (exists front, s = front ++ taskDefFriendlyName s) /\
  clusterFriendlyName (clusterFriendlyName s) = clusterFriendlyName s /\
  taskDefFriendlyName (taskDefFriendlyName s) = taskDefFriendlyName s /\
  (all_chars notSlash s = true ->
   clusterFriendlyName s = s /\ taskDefFriendlyName s = s).
Proof.
  unfold clusterFriendlyName, taskDefFriendlyName.
  refine (conj _ (conj _ (conj _ (conj _ _)))).
  - apply replace_through_suffix.
  - apply replace_through_suffix.
  - apply replace_through_idempotent; [discriminate | reflexivity].
  - apply replace_through_idempotent; [discriminate | reflexivity].
  - intros H. split; apply replace_through_plain; try assumption; reflexivity.
Qed.

Lemma friendly_names_stable_witness :
  all_chars notSlash "prod" = true /\
  clusterFriendlyName "prod" = "prod" /\ taskDefFriendlyName "prod" = "prod".
Proof.
  split; [reflexivity |].
  apply (friendly_names_stable "prod"). reflexivity.
Defined.

(** ** Cluster and task selection *)

Lemma indexOf_not_In (xs : list string) (x : string) :
  ~ In x xs -> Js.indexOf xs x = (-1)%Z.
Proof.
  induction xs as [| y ys IH]; intros H; simpl; [reflexivity |].
  destruct (y =? x) eqn:E.
  - apply String.eqb_eq in E. exfalso. apply H. now left.
  - rewrite IH; [reflexivity |]. intros Hin. apply H. now right.
Qed.

Lemma includes_not_In (xs : list string) (x : string) :
  ~ In x xs -> Js.includes xs x = false.
Proof.
  intros H. destruct (Js.includes xs x) eqn:E; [| reflexivity].
  apply includes_In in E. contradiction.
Qed.

(** X4.  A hint that is absent, empty, or equal to no identifier and no
    friendly name of the list is passed over without an error: the
    prompt shows the friendly names in the order of the list, and what
    the operator answers is returned as the cluster as it is, a friendly
    name and not an identifier. *)
Theorem askCluster_unmatched_hint_prompts
    (w : World) (clusterArns : list string) (st : State) :
  match argv_cluster w with
  | None => True
  | Some hint =>
      hint = EmptyString \/
      (~ In hint clusterArns /\ ~ In hint (map clusterFriendlyName clusterArns))
  end ->
  askCluster w clusterArns st
  = (match prompt_list w "cluster" (map clusterFriendlyName clusterArns) with
     | Resolved answer => Resolved (Some answer)
     | Rejected e => Rejected e
     end,
     logged st [EvPrompt "cluster" (map clusterFriendlyName clusterArns)]).
Proof.
  intros H. unfold askCluster, logged.
  assert (Hask : forall choices,
             (answer <- prompt_for_choice w "cluster" choices ;; ret (Some answer)) st
             = (match prompt_list w "cluster" choices with
                | Resolved answer => Resolved (Some answer)
                | Rejected e => Rejected e
                end,
                {| credentials := credentials st; files := files st;
                   trace := trace st ++ [EvPrompt "cluster" choices] |})).
  { intros choices. async_unfold. simpl.
    destruct (prompt_list w "cluster" choices); reflexivity. }
  destruct (argv_cluster w) as [hint |]; [| apply Hask].
  destruct H as [-> | [H1 H2]].
  - simpl. apply Hask.
  - rewrite (includes_not_In _ _ H1), (includes_not_In _ _ H2).
    rewrite !andb_false_r. apply Hask.
Qed.

Lemma askCluster_unmatched_hint_prompts_witness :
  match argv_cluster (Scenario.world (Some "staging") None None None None
                        (Scenario.atTask 0) (Saved "check-ecs-exec.sh")) with
  | None => True
  | Some hint =>
      hint = EmptyString \/
      (~ In hint [Scenario.prodArn] /\
       ~ In hint (map clusterFriendlyName [Scenario.prodArn]))
  end /\
  askCluster (Scenario.world (Some "staging") None None None None
                (Scenario.atTask 0) (Saved "check-ecs-exec.sh"))
    [Scenario.prodArn] Scenario.ambient
  = (Resolved (Some "prod"), logged Scenario.ambient [EvPrompt "cluster" ["prod"]]).
Proof.
  assert (H : match argv_cluster (Scenario.world (Some "staging") None None None None
                                    (Scenario.atTask 0) (Saved "check-ecs-exec.sh")) with
              | None => True
              | Some hint =>
                  hint = EmptyString \/
                  (~ In hint [Scenario.prodArn] /\
                   ~ In hint (map clusterFriendlyName [Scenario.prodArn]))
              end).
  { right. split; intros [E | []]; discriminate E. }
  split; [exact H |].
  exact (askCluster_unmatched_hint_prompts
           (Scenario.world (Some "staging") None None None None
              (Scenario.atTask 0) (Saved "check-ecs-exec.sh"))
           [Scenario.prodArn] Scenario.ambient H).
Defined.

Lemma taskChoice_referenced (t : Task) :
  referenced t <-> exists label, taskChoice t = Some label.
Proof.
  split; [apply taskChoice_defined |].
  unfold referenced, Js.truthy, taskChoice.
  destruct (taskDefinitionArn t) as [arn |]; [| intros [l H]; discriminate].
  destruct (arn =? EmptyString); [intros [l H]; discriminate | reflexivity].
Qed.

(** X5.  The choices of the task prompt are the display strings of
    exactly the tasks that have a task-definition reference, in the
    order of the task list; they are as many as the tasks when, and only
    when, every task has one. *)
Theorem taskChoices_of_referenced_tasks (tasks : list Task) :
  (exists kept,
      keeps referenced tasks kept /\
      map taskChoice kept = map Some (taskChoices tasks)) /\
  (length (taskChoices tasks) <= length tasks) /\
  (length (taskChoices tasks) = length tasks <-> Forall referenced tasks).
Proof.
  induction tasks as [| t ts [[kept [Hk Hm]] [Hle Hiff]]].
  - split; [exists []; split; [constructor | reflexivity] |].
    split; [reflexivity |]. split; [constructor | reflexivity].
  - rewrite taskChoices_cons.
    destruct (taskChoice t) as [label |] eqn:E.
    + assert (Hr : referenced t) by (apply taskChoice_referenced; eauto).
      split.
      * exists (t :: kept). split; [now apply keeps_take |].
        simpl. now rewrite E, Hm.
      * simpl. split; [lia |]. split.
        -- intros H. constructor; [exact Hr |]. apply Hiff. lia.
        -- intros H. inversion H; subst. f_equal. now apply Hiff.
    + assert (Hr : ~ referenced t).
      { intros H. apply taskChoice_referenced in H. destruct H as [l H].
        congruence. }
      split.
      * exists kept. split; [now apply keeps_skip | exact Hm].
      * simpl. split; [lia |]. split.
        -- intros H. lia.
        -- intros H. inversion H; subst. contradiction.
Qed.

Section Selection.

Variable w : World.

(** What [pickTask] resolves with is a task of the list, with its own
    non-empty ARN, chosen by a label that was on offer. *)
Lemma pickTask_resolved (tasks : list Task) (st st' : State) (t : Task) (arn : string) :
  pickTask w tasks st = (Resolved (t, arn), st') ->
  In t tasks /\ taskArn t = Some arn /\ arn <> EmptyString /\
  st' = logged st [EvPrompt "task" (taskChoices tasks)] /\
  exists label,
    prompt_list w "task" (taskChoices tasks) = Resolved label /\
    In label (taskChoices tasks).
Proof.
  unfold pickTask, askTasks, logged. async_unfold. simpl.
  destruct (prompt_list w "task" (taskChoices tasks)) as [label | e] eqn:Ea;
    [| discriminate].
  simpl.
  destruct (in_dec string_dec label (taskChoices tasks)) as [Hin | Hout].
  - destruct (Js.at_index tasks (Js.indexOf (taskChoices tasks) label))
      as [u |] eqn:Eu; [| discriminate].
    destruct (taskArn u) as [a |] eqn:Earn; [| discriminate].
    destruct (a =? EmptyString) eqn:Ee; [discriminate |].
    intros H. injection H as <- <- <-.
    refine (conj _ (conj Earn (conj _ (conj eq_refl _)))).
    + unfold Js.at_index in Eu.
      destruct (Js.indexOf (taskChoices tasks) label <? 0)%Z; [discriminate |].
      eapply nth_error_In. exact Eu.
    + now apply String.eqb_neq.
    + exists label. now split.
  - rewrite (indexOf_not_In _ _ Hout). simpl. discriminate.
Qed.

(** An answer that is none of the choices selects nothing. *)
Lemma pickTask_unknown_answer (tasks : list Task) (answer : string) (st : State) :
  prompt_list w "task" (taskChoices tasks) = Resolved answer ->
  ~ In answer (taskChoices tasks) ->
  pickTask w tasks st
  = (Rejected (TypeError "Cannot read properties of undefined (reading 'taskArn')"),
     logged st [EvPrompt "task" (taskChoices tasks)]).
Proof.
  intros Ha Hout. unfold pickTask, askTasks, logged. async_unfold. simpl.
  rewrite Ha. simpl. rewrite (indexOf_not_In _ _ Hout). reflexivity.
Qed.

Lemma listTasks_resolved (cluster : option string) (st st' : State) (tasks : list Task) :
  listTasks w cluster st = (Resolved (Some tasks), st') ->
  Forall enabled tasks /\ credentials st' = credentials st /\ files st' = files st.
Proof.
  unfold listTasks. async_unfold. simpl.
  destruct (ecs_listTasks w (credentials st) cluster) as [[arns |] | e];
    simpl; try discriminate.
  destruct (ecs_describeTasks w (credentials st) cluster arns) as [[described |] | e];
    simpl; try discriminate.
  intros H. injection H as <- <-. simpl. split; [| split; reflexivity].
  apply Forall_forall. intros t Ht. apply filter_In in Ht.
  now apply enableExecuteCommand_enabled.
Qed.

(** What task selection resolves with is an enabled task and its ARN. *)
Lemma selectTask_resolved (cluster : option string) (st st' : State)
    (t : Task) (arn : string) :
  selectTask w cluster st = (Resolved (t, arn), st') ->
  enabled t /\ taskArn t = Some arn /\ arn <> EmptyString.
Proof.
  unfold selectTask, bind.
  destruct (listTasks w cluster st) as [[[tasks |] | e] st1] eqn:El;
    try discriminate.
  intros H. apply pickTask_resolved in H.
  destruct H as [Hin [Harn [Hne _]]].
  apply listTasks_resolved in El. destruct El as [Hall _].
  rewrite Forall_forall in Hall. auto.
Qed.

End Selection.

(** X6.  Whenever task selection resolves, the task it hands on has
    [enableExecuteCommand] true and the ARN handed on with it is the
    task's own, non-empty ARN: a session is never opened into a task
    that was filtered out or has no ARN. *)
Theorem selectTask_selects_enabled_task
    (w : World) (cluster : option string) (st st' : State) (t : Task) (arn : string) :
  selectTask w cluster st = (Resolved (t, arn), st') ->
  enabled t /\ taskArn t = Some arn /\ arn <> EmptyString.
Proof.
  unfold selectTask, bind.
  destruct (listTasks w cluster st) as [[[tasks |] | e] st1] eqn:El;
    try discriminate.
  intros H. apply pickTask_resolved in H.
  destruct H as [Hin [Harn [Hne _]]].
  apply listTasks_resolved in El. destruct El as [Hall _].
  rewrite Forall_forall in Hall. auto.
Qed.

Lemma selectTask_selects_enabled_task_witness :
  selectTask (Scenario.session [Scenario.disabled; Scenario.replicaA])
    (Some Scenario.prodArn) Scenario.ambient
  = (Resolved (Scenario.replicaA,
               "arn:aws:ecs:us-east-1:123456789012:task/prod/aaaa"),
     logged Scenario.ambient
       [EvAws (ListTasks (Some Scenario.prodArn) "RUNNING");
        EvAws (DescribeTasks (Some Scenario.prodArn)
                 ["arn:aws:ecs:us-east-1:123456789012:task/prod/eeee";
                  "arn:aws:ecs:us-east-1:123456789012:task/prod/aaaa"]);
        EvPrompt "task" ["web:3 - (FARGATE)"]]) /\
  enabled Scenario.replicaA /\
  taskArn Scenario.replicaA
  = Some "arn:aws:ecs:us-east-1:123456789012:task/prod/aaaa" /\
  "arn:aws:ecs:us-east-1:123456789012:task/prod/aaaa" <> EmptyString.
Proof.
  assert (H : selectTask (Scenario.session [Scenario.disabled; Scenario.replicaA])
                (Some Scenario.prodArn) Scenario.ambient
              = (Resolved (Scenario.replicaA,
                           "arn:aws:ecs:us-east-1:123456789012:task/prod/aaaa"),
                 logged Scenario.ambient
                   [EvAws (ListTasks (Some Scenario.prodArn) "RUNNING");
                    EvAws (DescribeTasks (Some Scenario.prodArn)
                             ["arn:aws:ecs:us-east-1:123456789012:task/prod/eeee";
                              "arn:aws:ecs:us-east-1:123456789012:task/prod/aaaa"]);
                    EvPrompt "task" ["web:3 - (FARGATE)"]]))
    by reflexivity.
  split; [exact H |].
  exact (selectTask_selects_enabled_task _ _ _ _ _ _ H).
Defined.

(** X7.  When the task prompt answers with a string that is none of the
    choices on offer (as it must for an empty list of tasks), task
    selection raises a [TypeError] after the one prompt and selects
    nothing: no task of the list is taken in its stead. *)
Theorem selectTask_unknown_answer
    (w : World) (cluster : option string) (tasks : list Task) (answer : string)
    (st st1 : State) :
  listTasks w cluster st = (Resolved (Some tasks), st1) ->
  prompt_list w "task" (taskChoices tasks) = Resolved answer ->
  ~ In answer (taskChoices tasks) ->
  selectTask w cluster st
  = (Rejected (TypeError "Cannot read properties of undefined (reading 'taskArn')"),
     logged st1 [EvPrompt "task" (taskChoices tasks)]).
Proof.
  intros Hl Ha Hout. unfold selectTask, bind. rewrite Hl.
  exact (pickTask_unknown_answer w tasks answer st1 Ha Hout).
Qed.

Lemma selectTask_unknown_answer_witness :
  listTasks (with_answers (Scenario.session []) (fun _ _ => Resolved "web:3 - (FARGATE)"))
    (Some Scenario.prodArn) Scenario.ambient
  = (Resolved (Some []),
     logged Scenario.ambient
       [EvAws (ListTasks (Some Scenario.prodArn) "RUNNING");
        EvAws (DescribeTasks (Some Scenario.prodArn) [])]) /\
  selectTask (with_answers (Scenario.session []) (fun _ _ => Resolved "web:3 - (FARGATE)"))
    (Some Scenario.prodArn) Scenario.ambient
  = (Rejected (TypeError "Cannot read properties of undefined (reading 'taskArn')"),
     logged (logged Scenario.ambient
               [EvAws (ListTasks (Some Scenario.prodArn) "RUNNING");
                EvAws (DescribeTasks (Some Scenario.prodArn) [])])
       [EvPrompt "task" (taskChoices [])]).
Proof.
  assert (H : listTasks (with_answers (Scenario.session [])
                           (fun _ _ => Resolved "web:3 - (FARGATE)"))
                (Some Scenario.prodArn) Scenario.ambient
              = (Resolved (Some []),
                 logged Scenario.ambient
                   [EvAws (ListTasks (Some Scenario.prodArn) "RUNNING");
                    EvAws (DescribeTasks (Some Scenario.prodArn) [])]))
    by reflexivity.
  split; [exact H |].
  apply (selectTask_unknown_answer
           (with_answers (Scenario.session []) (fun _ _ => Resolved "web:3 - (FARGATE)"))
           (Some Scenario.prodArn) [] "web:3 - (FARGATE)" Scenario.ambient _ H).
  - reflexivity.
  - intros [].
Defined.

(** ** The credential exchange, failing *)

Section ExchangeFailure.

Variable w : World.

(** A rejection of the exchange is the one wrapped error, and the
    credentials stay. *)
Lemma mfaTokens_rejection (code : string) (st : State) :
  match fst (mfaTokens w code st) with
  | Resolved _ => True
  | Rejected e =>
      e = Error "MFA failed" /\
      credentials (snd (mfaTokens w code st)) = credentials st
  end.
Proof.
  unfold mfaTokens. async_unfold. simpl.
  destruct (iam_listMFADevices w (credentials st)) as [[| first others] | e]; simpl.
  - now split.
  - destruct (sts_getSessionToken w (credentials st) 3600 (SerialNumber first) code)
      as [[c |] | e]; simpl.
    + exact Logic.I.
    + now split.
    + destruct (instanceofError e); simpl; now split.
  - destruct (instanceofError e); simpl; now split.
Qed.

End ExchangeFailure.

(** X8.  Whatever goes wrong inside the credential exchange (the device
    listing fails or is empty, the token service fails or answers
    without credentials), [mfaTokens] rejects with the one error
    "MFA failed" and the credentials are those from before the call;
    it resolves only after the token service answered with credentials
    for the first listed device, and these are then in force.  The files
    are never touched. *)
Theorem mfaTokens_failure_is_wrapped (w : World) (code : string) (st : State) :
  match fst (mfaTokens w code st) with
  | Resolved _ =>
      exists first others c,
        iam_listMFADevices w (credentials st) = Resolved (first :: others) /\
        sts_getSessionToken w (credentials st) 3600 (SerialNumber first) code
        = Resolved (Some c) /\
        credentials (snd (mfaTokens w code st))
        = Some {| accessKeyId := AccessKeyId c;
                  secretAccessKey := SecretAccessKey c |}
  | Rejected e =>
      e = Error "MFA failed" /\
      credentials (snd (mfaTokens w code st)) = credentials st
  end /\
  files (snd (mfaTokens w code st)) = files st.
Proof.
  unfold mfaTokens. async_unfold. simpl.
  destruct (iam_listMFADevices w (credentials st)) as [[| first others] | e]; simpl.
  - split; [split |]; reflexivity.
  - destruct (sts_getSessionToken w (credentials st) 3600 (SerialNumber first) code)
      as [[c |] | e] eqn:Et; simpl.
    + split; [| reflexivity]. exists first, others, c.
      split; [reflexivity |]. split; [exact Et | reflexivity].
    + split; [split |]; reflexivity.
    + destruct (instanceofError e); simpl; (split; [split |]; reflexivity).
  - destruct (instanceofError e); simpl; (split; [split |]; reflexivity).
Qed.

(** ** What a computation carries along *)

Section Preserving.

Context {A B : Type} (I : State -> Prop).

Lemma preserves_ret (a : A) : preserves I (ret a).
Proof. intros st H. exact H. Qed.

Lemma preserves_throw (e : Exn) : preserves I (@throw A e).
Proof. intros st H. exact H. Qed.

Lemma preserves_settle (o : Outcome A) : preserves I (settle o).
Proof. intros st H. exact H. Qed.

Lemma preserves_bind (m : M A) (k : A -> M B) :
  preserves I m -> (forall a, preserves I (k a)) -> preserves I (bind m k).
Proof.
  intros Hm Hk st H. unfold bind.
  specialize (Hm st H). destruct (m st) as [[a | e] st1]; simpl in *.
  - now apply Hk.
  - exact Hm.
Qed.

Lemma preserves_try_catch (body : M A) (handler : Exn -> M A) :
  preserves I body -> (forall e, preserves I (handler e)) ->
  preserves I (try_catch body handler).
Proof.
  intros Hm Hk st H. unfold try_catch.
  specialize (Hm st H). destruct (body st) as [[a | e] st1]; simpl in *.
  - exact Hm.
  - now apply Hk.
Qed.

Lemma preserves_try_finally (body : M A) (fin : M unit) :
  preserves I body -> preserves I fin -> preserves I (try_finally body fin).
Proof.
  intros Hm Hk st H. unfold try_finally.
  specialize (Hm st H). destruct (body st) as [r st1]; simpl in *.
  specialize (Hk st1 Hm). destruct (fin st1) as [[u | e] st2]; exact Hk.
Qed.

End Preserving.

Lemma preserves_getCredentials (I : State -> Prop) : preserves I getCredentials.
Proof. intros st H. exact H. Qed.

Lemma preserves_getFiles (I : State -> Prop) : preserves I getFiles.
Proof. intros st H. exact H. Qed.

Ltac preserve_step :=
  first
    [ solve [auto]
    | apply preserves_ret
    | apply preserves_throw
    | apply preserves_settle
    | apply preserves_getCredentials
    | apply preserves_getFiles
    | apply preserves_bind; [| intro]
    | apply preserves_try_catch; [| intro]
    | apply preserves_try_finally
    | match goal with
      | |- preserves _ (match ?x with _ => _ end) => destruct x
      | |- preserves _ (if ?b then _ else _) => destruct b
      end ].

Ltac preserve := repeat preserve_step.

(** The parts of the program carry along whatever its primitive steps
    carry along. *)
Section PreservingProgram.

Variable w : World.
Variable I : State -> Prop.

Hypothesis I_prompt : forall question choices, preserves I (emit (EvPrompt question choices)).
Hypothesis I_aws : forall call, preserves I (emit (EvAws call)).
Hypothesis I_log : forall msg, preserves I (emit (EvLog msg)).
Hypothesis I_credentials : forall c, preserves I (setCredentials c).
Hypothesis I_launch : forall args, preserves I (spawnAwsScript w "aws" args).

Lemma preserves_prompt_for_choice (question : string) (choices : list string) :
  preserves I (prompt_for_choice w question choices).
Proof. unfold prompt_for_choice. preserve. Qed.

Lemma preserves_resolveCluster : preserves I (resolveCluster w).
Proof.
  unfold resolveCluster, listClusters, askCluster, aws, prompt_for_choice. preserve.
Qed.

Lemma preserves_selectTask (cluster : option string) :
  preserves I (selectTask w cluster).
Proof.
  unfold selectTask, listTasks, pickTask, askTasks, aws, prompt_for_choice. preserve.
Qed.

Lemma preserves_connect (cluster : option string) (task : Task) (taskArn : string) :
  preserves I (connect w cluster task taskArn).
Proof.
  unfold connect, resolveContainer, askContainers, launch, askShell, prompt_for_choice.
  preserve.
Qed.

Lemma preserves_authenticate : preserves I (authenticate w).
Proof.
  unfold authenticate, askMFA, prompt_for_input, mfaTokens, aws, console_log.
  preserve.
Qed.

Lemma preserves_report (e : Exn) : preserves I (report e).
Proof. unfold report, console_log. preserve. Qed.

Hypothesis I_validate : forall cluster taskArn, preserves I (validate w cluster taskArn).

Lemma preserves_afterAuthenticate : preserves I (afterAuthenticate w).
Proof.
  unfold afterAuthenticate.
  apply preserves_bind; [apply preserves_resolveCluster | intro].
  apply preserves_bind; [apply preserves_selectTask | intro].
  apply preserves_bind; [apply I_validate | intro].
  apply preserves_bind; [apply preserves_connect | intro].
  apply preserves_ret.
Qed.

End PreservingProgram.

(** [run] is its [try] and its [catch]. *)
Lemma run_attempt_report (w : World) (st : State) :
  run w st = try_catch (attempt w) (report) st.
Proof. reflexivity. Qed.

(** ** The validator, step by step *)

Section PreservingValidator.

Variable w : World.
Variable I : State -> Prop.

Hypothesis I_download : forall url dest, preserves I (emit (EvDownload url dest)).
Hypothesis I_chmod : forall path mode, preserves I (emit (EvChmod path mode)).
Hypothesis I_rmdir : forall dir, preserves I (emit (EvRmdir dir)).
Hypothesis I_files : forall fs, preserves I (setFiles fs).
Hypothesis I_spawn : forall cmd args, preserves I (spawnAwsScript w cmd args).

Lemma preserves_testConfig_finally (execFolder execPath : option string) :
  preserves I (testConfig_finally execFolder execPath).
Proof.
  unfold testConfig_finally, fs_existsSync, fs_rmdirSync. preserve.
Qed.

Lemma preserves_run_download (url dest : string) :
  preserves I (run_download w url dest).
Proof. unfold run_download. preserve. Qed.

Lemma preserves_testConfig (cluster : option string) (taskArn : string) :
  preserves I (testConfig w cluster taskArn).
Proof.
  intros st H. unfold testConfig.
  pose proof (preserves_run_download testUrl (tempfile w) st H) as Hd.
  destruct (run_download w testUrl (tempfile w) st) as [[u | e] st1]; simpl in Hd.
  - apply preserves_try_finally; [| apply preserves_testConfig_finally | exact Hd].
    unfold fs_chmodSync. preserve.
  - apply preserves_try_finally;
      [apply preserves_throw | apply preserves_testConfig_finally | exact Hd].
Qed.

Lemma preserves_validate (cluster : option string) (taskArn : string) :
  preserves I (validate w cluster taskArn).
Proof.
  unfold validate. destruct (Js.default_to true (argv_test w)).
  - apply preserves_testConfig.
  - apply preserves_ret.
Qed.

End PreservingValidator.

(** ** Credentials handed to the children *)

Section Forwarding.

Variable w : World.
Variable c : option Credentials.
Variable st0 : State.

Lemma forwards_start : credentials st0 = c -> forwards c st0 st0.
Proof.
  intros H. split; [exact H |]. exists []. now rewrite app_nil_r.
Qed.

Lemma forwards_emit (e : Event) :
  spawnedWith c e = true -> preserves (forwards c st0) (emit e).
Proof.
  intros He st [Hc [evs [Ht Hall]]]. split; [exact Hc |].
  exists (evs ++ [e])%list. simpl. rewrite Ht, app_assoc. split; [reflexivity |].
  rewrite forallb_app, Hall. simpl. now rewrite He.
Qed.

Lemma forwards_setFiles (fs : list string) :
  preserves (forwards c st0) (setFiles fs).
Proof. intros st H. exact H. Qed.

Lemma forwards_spawnAwsScript (cmd : string) (args : list (option string)) :
  preserves (forwards c st0) (spawnAwsScript w cmd args).
Proof.
  intros st H. pose proof H as [Hc [evs [Ht Hall]]].
  unfold spawnAwsScript. async_unfold. rewrite Hc.
  destruct c as [c' |]; [| exact H].
  assert (Hspawn : spawnedWith (Some c')
                     (EvSpawn cmd args (accessKeyId c') (secretAccessKey c')) = true).
  { simpl. now rewrite !String.eqb_refl. }
  destruct (child_process w cmd args) as [code signal | e]; simpl;
    (split; [exact Hc |]);
    eexists; rewrite Ht, <- !app_assoc; simpl;
    (split; [reflexivity |]);
    rewrite forallb_app, Hall; cbn [forallb andb]; rewrite Hspawn; reflexivity.
Qed.

Lemma forwards_afterAuthenticate : preserves (forwards c st0) (afterAuthenticate w).
Proof.
  apply preserves_afterAuthenticate;
    try (intros; now apply forwards_emit);
    try (intros; apply forwards_spawnAwsScript).
  intros cluster taskArn. apply preserves_validate;
    try (intros; now apply forwards_emit);
    try (intros; apply forwards_setFiles);
    try (intros; apply forwards_spawnAwsScript).
Qed.

Lemma forwards_report (e : Exn) : preserves (forwards c st0) (report e).
Proof.
  unfold report, console_log.
  destruct (instanceofError e);
    (apply preserves_bind; [| intro; apply preserves_ret]).
  - now apply forwards_emit.
  - apply preserves_ret.
Qed.

End Forwarding.

(** X13.  Nothing after the MFA step changes the credentials, and every
    process the run spawns after it (the validator script and [aws])
    is handed, as [AWS_ACCESS_KEY_ID] and [AWS_SECRET_ACCESS_KEY],
    exactly the credentials in force when that step ended: the session
    credentials after a successful exchange, the ambient ones otherwise;
    with no credentials in force nothing is spawned at all. *)
Theorem run_forwards_credentials (w : World) (st : State) :
  credentials (snd (run w st)) = credentials (snd (authenticate w st)) /\
  exists evs,
    trace (snd (run w st)) = (trace (snd (authenticate w st)) ++ evs)%list /\
    forallb (spawnedWith (credentials (snd (authenticate w st)))) evs = true.
Proof.
  change (forwards (credentials (snd (authenticate w st)))
            (snd (authenticate w st)) (snd (run w st))).
  rewrite run_attempt_report. unfold try_catch, attempt. unfold bind at 1.
  destruct (authenticate w st) as [[u | e] st1]; simpl.
  - pose proof (forwards_afterAuthenticate w (credentials st1) st1 st1
                  (forwards_start _ _ eq_refl)) as H.
    destruct (afterAuthenticate w st1) as [[v | e] st2]; simpl in *.
    + exact H.
    + now apply forwards_report.
  - apply forwards_report. now apply forwards_start.
Qed.

(** ** Running without the validator *)

Section Undisturbed.

Variable w : World.
Variable st0 : State.

Lemma undisturbed_start : undisturbed st0 st0.
Proof.
  split; [reflexivity |]. exists []. now rewrite app_nil_r.
Qed.

Lemma undisturbed_emit (e : Event) :
  leavesDisk e = true -> preserves (undisturbed st0) (emit e).
Proof.
  intros He st [Hf [evs [Ht Hall]]]. split; [exact Hf |].
  exists (evs ++ [e])%list. simpl. rewrite Ht, app_assoc. split; [reflexivity |].
  rewrite forallb_app, Hall. simpl. now rewrite He.
Qed.

Lemma undisturbed_setCredentials (c : option Credentials) :
  preserves (undisturbed st0) (setCredentials c).
Proof. intros st H. exact H. Qed.

Lemma undisturbed_launch (args : list (option string)) :
  preserves (undisturbed st0) (spawnAwsScript w "aws" args).
Proof.
  unfold spawnAwsScript.
  apply preserves_bind; [apply preserves_getCredentials | intros [c |]].
  - apply preserves_bind; [now apply undisturbed_emit | intro].
    destruct (child_process w "aws" args).
    + apply preserves_bind; [now apply undisturbed_emit | intro; apply preserves_ret].
    + apply preserves_bind; [now apply undisturbed_emit | intro].
      apply preserves_bind; [now apply undisturbed_emit | intro; apply preserves_throw].
  - apply preserves_throw.
Qed.

End Undisturbed.

(** X14.  With [--no-test] the run leaves the disk alone: it downloads
    nothing, changes no mode, removes nothing, spawns nothing but
    [aws], and the files at its end are those at its start, however it
    ends. *)
Theorem run_without_test_leaves_disk (w : World) (st : State) :
  argv_test w = Some false ->
  files (snd (run w st)) = files st /\
  exists evs,
    trace (snd (run w st)) = (trace st ++ evs)%list /\
    forallb leavesDisk evs = true.
Proof.
  intros Htest.
  change (undisturbed st (snd (run w st))).
  assert (H : preserves (undisturbed st) (run w)).
  { intros s. rewrite run_attempt_report. revert s.
    apply preserves_try_catch.
    - unfold attempt. apply preserves_bind.
      + apply preserves_authenticate;
          try (intros; now apply undisturbed_emit).
        intros; apply undisturbed_setCredentials.
      + intros _. apply preserves_afterAuthenticate;
          try (intros; now apply undisturbed_emit).
        * intros; apply undisturbed_launch.
        * intros cluster taskArn. unfold validate. rewrite Htest.
          apply preserves_ret.
    - intros e. apply preserves_report. intros; now apply undisturbed_emit. }
  apply H. apply undisturbed_start.
Qed.

Lemma run_without_test_leaves_disk_witness :
  argv_test (with_test (Scenario.session [Scenario.replicaA]) (Some false))
  = Some false /\
  files (snd (run (with_test (Scenario.session [Scenario.replicaA]) (Some false))
                Scenario.ambient))
  = files Scenario.ambient.
Proof.
  split; [reflexivity |].
  apply (run_without_test_leaves_disk
           (with_test (Scenario.session [Scenario.replicaA]) (Some false))
           Scenario.ambient).
  reflexivity.
Defined.

(** ** How a run ends *)

Section Endings.

Variable w : World.

Lemma bind_resolved {A B : Type} (m : M A) (k : A -> M B) (st st' : State) (b : B) :
  bind m k st = (Resolved b, st') ->
  exists a st1, m st = (Resolved a, st1) /\ k a st1 = (Resolved b, st').
Proof.
  unfold bind. destruct (m st) as [[a | e] st1]; [| discriminate].
  intros H. now exists a, st1.
Qed.

Lemma spawnAwsScript_resolved (cmd : string) (args : list (option string))
    (st st' : State) (r : option Z * option string) :
  spawnAwsScript w cmd args st = (Resolved r, st') ->
  exists c,
    credentials st = Some c /\
    child_process w cmd args = Closed (fst r) (snd r) /\
    st' = logged st [EvSpawn cmd args (accessKeyId c) (secretAccessKey c);
                     EvConsoleError (Closed (fst r) (snd r))].
Proof.
  unfold spawnAwsScript, logged. async_unfold.
  destruct (credentials st) as [c |] eqn:Ec; [| discriminate].
  destruct (child_process w cmd args) as [code signal | e]; simpl; [| discriminate].
  intros H. injection H as <- <-. exists c. simpl.
  rewrite Ec, <- app_assoc. now repeat split.
Qed.

Lemma launch_resolved (cluster : option string) (taskArn : string)
    (containerName : option string) (st st' : State) :
  launch w cluster taskArn containerName st = (Resolved tt, st') ->
  exists shell c code signal,
    prompt_list w "shell" ["/bin/bash"; "/bin/sh"] = Resolved shell /\
    credentials st = Some c /\
    child_process w "aws" (executeCommandArgs cluster taskArn containerName shell)
    = Closed code signal /\
    st' = logged st
            [EvPrompt "shell" ["/bin/bash"; "/bin/sh"];
             EvSpawn "aws" (executeCommandArgs cluster taskArn containerName shell)
               (accessKeyId c) (secretAccessKey c);
             EvConsoleError (Closed code signal)].
Proof.
  unfold launch, askShell, prompt_for_choice. intros H.
  apply bind_resolved in H. destruct H as [shell [st1 [Hask H]]].
  apply bind_resolved in H. destruct H as [r [st2 [Hspawn H]]].
  injection H as <-.
  unfold bind, emit, settle in Hask. simpl in Hask.
  destruct (prompt_list w "shell" ["/bin/bash"; "/bin/sh"]) as [answer | e];
    [| discriminate].
  injection Hask as <- <-.
  apply spawnAwsScript_resolved in Hspawn.
  destruct Hspawn as [c [Hc [Hchild ->]]].
  exists answer, c, (fst r), (snd r). simpl in Hc.
  refine (conj eq_refl (conj Hc (conj Hchild _))).
  unfold logged. simpl. now rewrite <- app_assoc.
Qed.

(** What task selection resolves with is one of the described tasks. *)
Lemma selectTask_from_description (cluster : option string) (st st' : State)
    (t : Task) (arn : string) :
  selectTask w cluster st = (Resolved (t, arn), st') ->
  exists taskArns described,
    ecs_listTasks w (credentials st) cluster = Resolved (Some taskArns) /\
    ecs_describeTasks w (credentials st) cluster taskArns = Resolved (Some described) /\
    In t described /\ enabled t /\ taskArn t = Some arn /\ arn <> EmptyString.
Proof.
  unfold selectTask, listTasks, aws. intros H.
  apply bind_resolved in H. destruct H as [tasks [st1 [Hl H]]].
  unfold bind, emit, getCredentials, settle in Hl. simpl in Hl.
  destruct (ecs_listTasks w (credentials st) cluster) as [[taskArns |] | e] eqn:E1;
    simpl in Hl; try discriminate.
  - destruct (ecs_describeTasks w (credentials st) cluster taskArns)
      as [[described |] | e] eqn:E2; simpl in Hl; try discriminate.
    + injection Hl as <- <-.
      apply pickTask_resolved in H. destruct H as [Hin [Harn [Hne _]]].
      apply filter_In in Hin. destruct Hin as [Hin Hen].
      exists taskArns, described.
      refine (conj eq_refl (conj E2 (conj Hin (conj _ (conj Harn Hne))))).
      now apply enableExecuteCommand_enabled.
    + injection Hl as <- <-. discriminate.
  - injection Hl as <- <-. discriminate.
Qed.

(** What the [catch] does with an [Error]. *)
Lemma report_Error (message : string) (st : State) :
  report (Error message) st = (Resolved (Some 1%Z), logged st [EvLog message]).
Proof. reflexivity. Qed.

(** The MFA step with a code given is the credential exchange. *)
Lemma authenticate_with_code (code : string) (st : State) :
  Js.default_to true (argv_mfa w) = true ->
  prompt_input w "mfaCode" = Resolved (Some code) ->
  code <> EmptyString ->
  authenticate w st = mfaTokens w code (logged st [EvPrompt "mfaCode" []]).
Proof.
  intros Hmfa Hcode Hne. apply String.eqb_neq in Hne.
  unfold authenticate, askMFA, prompt_for_input. rewrite Hmfa.
  unfold bind at 1 2. unfold emit, settle. simpl. rewrite Hcode, Hne. reflexivity.
Qed.

End Endings.

(** X9.  A run ends with [undefined], the sign of a completed session,
    only when every step resolved in its turn: the MFA step, the
    cluster, the task selection, the validator, the container and the
    shell prompt.  Its last action is then the launch of
    [aws ecs execute-command], closed by the child; the child got the
    credentials in force, and the value after [--task] is the ARN that
    task selection resolved with: the own, non-empty ARN of one of the
    tasks the service described for the cluster, with
    [enableExecuteCommand] true. *)
Theorem run_completed_means_launched (w : World) (st : State) :
  fst (run w st) = Resolved None ->
  exists st1 cluster st2 t arn st3 st4 containerName st5 shell c code signal,
    authenticate w st = (Resolved tt, st1) /\
    resolveCluster w st1 = (Resolved cluster, st2) /\
    selectTask w cluster st2 = (Resolved (t, arn), st3) /\
    validate w cluster arn st3 = (Resolved tt, st4) /\
    resolveContainer w t st4 = (Resolved containerName, st5) /\
    prompt_list w "shell" ["/bin/bash"; "/bin/sh"] = Resolved shell /\
    credentials st5 = Some c /\
    child_process w "aws" (executeCommandArgs cluster arn containerName shell)
    = Closed code signal /\
    run w st
    = (Resolved None,
       logged st5
         [EvPrompt "shell" ["/bin/bash"; "/bin/sh"];
          EvSpawn "aws" (executeCommandArgs cluster arn containerName shell)
            (accessKeyId c) (secretAccessKey c);
          EvConsoleError (Closed code signal)]) /\
    (exists taskArns described,
        ecs_listTasks w (credentials st2) cluster = Resolved (Some taskArns) /\
        ecs_describeTasks w (credentials st2) cluster taskArns
        = Resolved (Some described) /\
        In t described) /\
    enabled t /\ taskArn t = Some arn /\ arn <> EmptyString.
Proof.
  rewrite run_attempt_report. unfold try_catch.
  destruct (attempt w st) as [[v | e] st'] eqn:E; simpl.
  - intros Hv. injection Hv as ->.
    unfold attempt in E.
    apply bind_resolved in E. destruct E as [[] [st1 [Hauth E]]].
    unfold afterAuthenticate in E.
    apply bind_resolved in E. destruct E as [cluster [st2 [Hcl E]]].
    apply bind_resolved in E. destruct E as [[t arn] [st3 [Hsel E]]].
    apply bind_resolved in E. destruct E as [[] [st4 [Hval E]]].
    apply bind_resolved in E. destruct E as [[] [st6 [Hcon E]]].
    injection E as <-. simpl in Hval, Hcon.
    unfold connect in Hcon.
    apply bind_resolved in Hcon. destruct Hcon as [cn [st5 [Hcn Hl]]].
    apply launch_resolved in Hl.
    destruct Hl as [shell [c [code [signal [Hshell [Hc [Hchild ->]]]]]]].
    destruct (selectTask_from_description w cluster st2 st3 t arn Hsel)
      as [taskArns [described [H1 [H2 [Hin [Hen [Harn Hne]]]]]]].
    exists st1, cluster, st2, t, arn, st3, st4, cn, st5, shell, c, code, signal.
    refine (conj Hauth (conj Hcl (conj Hsel (conj Hval (conj Hcn (conj Hshell
              (conj Hc (conj Hchild (conj eq_refl (conj _ (conj Hen (conj Harn Hne)))))))))))).
    exists taskArns, described. now repeat split.
  - unfold report, bind. destruct (instanceofError e); simpl; discriminate.
Qed.

Lemma run_completed_means_launched_witness :
  fst (run (Scenario.session [Scenario.replicaA]) Scenario.ambient) = Resolved None /\
  exists cluster st2 t arn st3,
    selectTask (Scenario.session [Scenario.replicaA]) cluster st2
    = (Resolved (t, arn), st3) /\
    enabled t /\ taskArn t = Some arn /\ arn <> EmptyString.
Proof.
  assert (H : fst (run (Scenario.session [Scenario.replicaA]) Scenario.ambient)
              = Resolved None) by (vm_compute; reflexivity).
  split; [exact H |].
  destruct (run_completed_means_launched
              (Scenario.session [Scenario.replicaA]) Scenario.ambient H)
    as [st1 [cluster [st2 [t [arn [st3 [st4 [cn [st5 [shell [c [code [signal
          [_ [_ [Hsel [_ [_ [_ [_ [_ [_ [_ [Hen [Harn Hne]]]]]]]]]]]]]]]]]]]]]]]]].
  exists cluster, st2, t, arn, st3.
  exact (conj Hsel (conj Hen (conj Harn Hne))).
Defined.

(** X10.  A failed credential exchange ends the run: with MFA on and a
    non-empty code given, when [mfaTokens] does not resolve, the run
    ends with [1], the last thing it does is print "MFA failed", no
    cluster is listed after the exchange, and the credentials are those
    from before. *)
Theorem run_stops_at_failed_mfa (w : World) (code : string) (st : State) :
  Js.default_to true (argv_mfa w) = true ->
  prompt_input w "mfaCode" = Resolved (Some code) ->
  code <> EmptyString ->
  fst (mfaTokens w code (logged st [EvPrompt "mfaCode" []])) <> Resolved tt ->
  run w st
  = (Resolved (Some 1%Z),
     logged (snd (mfaTokens w code (logged st [EvPrompt "mfaCode" []])))
       [EvLog "MFA failed"]) /\
  credentials (snd (run w st)) = credentials st.
Proof.
  intros Hmfa Hcode Hne Hfail.
  pose proof (mfaTokens_rejection w code (logged st [EvPrompt "mfaCode" []])) as Ho.
  assert (Hrun : run w st
                 = (Resolved (Some 1%Z),
                    logged (snd (mfaTokens w code (logged st [EvPrompt "mfaCode" []])))
                      [EvLog "MFA failed"])).
  { rewrite run_attempt_report. unfold try_catch, attempt. unfold bind at 1.
    rewrite (authenticate_with_code w code st Hmfa Hcode Hne).
    destruct (mfaTokens w code (logged st [EvPrompt "mfaCode" []]))
      as [[[] | e] st1]; simpl in *.
    - congruence.
    - destruct Ho as [-> _]. apply report_Error. }
  split; [exact Hrun |]. rewrite Hrun. simpl.
  destruct (fst (mfaTokens w code (logged st [EvPrompt "mfaCode" []]))) as [[] | e].
  - congruence.
  - now destruct Ho as [_ ->].
Qed.

Lemma run_stops_at_failed_mfa_witness :
  run (with_devices
         (Scenario.world None (Some "123456") None None None (Scenario.atTask 0)
            (Saved "check-ecs-exec.sh")) [])
    Scenario.ambient
  = (Resolved (Some 1%Z),
     logged Scenario.ambient
       [EvPrompt "mfaCode" []; EvAws ListMFADevices;
        EvLog "MFA failed: No MFA devices found"; EvLog "MFA failed"]).
Proof.
  pose proof (run_stops_at_failed_mfa
                (with_devices
                   (Scenario.world None (Some "123456") None None None
                      (Scenario.atTask 0) (Saved "check-ecs-exec.sh")) [])
                "123456" Scenario.ambient eq_refl eq_refl) as H.
  destruct H as [H _]; [discriminate | vm_compute; discriminate |].
  rewrite H. reflexivity.
Defined.

(** X11.  When the listing of clusters comes back without a list, the
    run ends with [1] right after that call, its last action being to
    print "No clusters found": no prompt for a cluster is shown and no
    task is listed. *)
Theorem run_without_cluster_list (w : World) (st st1 : State) :
  authenticate w st = (Resolved tt, st1) ->
  ecs_listClusters w (credentials st1) = Resolved None ->
  run w st
  = (Resolved (Some 1%Z),
     logged st1 [EvAws ListClusters; EvLog "No clusters found"]).
Proof.
  intros Hauth Hlist.
  rewrite run_attempt_report. unfold try_catch, attempt. unfold bind at 1.
  rewrite Hauth. unfold afterAuthenticate, resolveCluster, listClusters, aws.
  unfold bind at 1 2 3 4. unfold emit, getCredentials, settle. simpl.
  rewrite Hlist. simpl. rewrite report_Error. unfold logged. simpl.
  now rewrite <- app_assoc.
Qed.

Lemma run_without_cluster_list_witness :
  run (Scenario.world None (Some EmptyString) None None None (Scenario.atTask 0)
         (Saved "check-ecs-exec.sh"))
    Scenario.ambient
  = (Resolved (Some 1%Z),
     logged (logged Scenario.ambient [EvPrompt "mfaCode" []])
       [EvAws ListClusters; EvLog "No clusters found"]).
Proof.
  apply (run_without_cluster_list
           (Scenario.world None (Some EmptyString) None None None (Scenario.atTask 0)
              (Saved "check-ecs-exec.sh"))
           Scenario.ambient (logged Scenario.ambient [EvPrompt "mfaCode" []])).
  - reflexivity.
  - reflexivity.
Defined.

(** ** The validator, from download to removal *)

Arguments existsIn : simpl never.
Arguments path_join : simpl never.
Arguments within : simpl never.



(** A script that cannot be started: the [error] handler prints the
    error, the [close] handler prints after it, the location is removed
    and the error is passed on. *)
Example testConfig_failed_start :
  testConfig
    (with_children (Scenario.session [])
       (fun _ _ => SpawnError (Error "spawn /tmp/3f0c/check-ecs-exec.sh ENOEXEC")
                     (Some (-8)%Z) None))
    (Some Scenario.prodArn) "arn:aws:ecs:us-east-1:123456789012:task/prod/aaaa"
    Scenario.ambient
  = (Rejected (Error "spawn /tmp/3f0c/check-ecs-exec.sh ENOEXEC"),
     logged Scenario.ambient
       [EvDownload testUrl "/tmp/3f0c";
        EvChmod "/tmp/3f0c/check-ecs-exec.sh" "755";
        EvSpawn "/tmp/3f0c/check-ecs-exec.sh"
          [Some Scenario.prodArn;
           Some "arn:aws:ecs:us-east-1:123456789012:task/prod/aaaa"]
          "AKIAEXAMPLE" "ambient-secret";
        EvConsoleError
          (SpawnError (Error "spawn /tmp/3f0c/check-ecs-exec.sh ENOEXEC")
             (Some (-8)%Z) None);
        EvConsoleError (Closed (Some (-8)%Z) None);
        EvRmdir "/tmp/3f0c"]).
Proof. reflexivity. Qed.

(** ** The two variants side by side *)

(** X15.  Where [src/index.js] answers for a task, [src/index.ts]
    answers the same containers with ["container"] in place of every
    absent or empty name; where [src/index.js] raises, on a task without
    a [containers] field, [src/index.ts] answers the empty list. *)
Theorem findExecuteCommandContainer_variants (task : Task) :
  match IndexJs.findExecuteCommandContainer task with
  | Resolved names =>
      findExecuteCommandContainer task
      = map (fun n => Js.or_else n "container") names
  | Rejected _ =>
      containers task = None /\ findExecuteCommandContainer task = []
  end.
Proof.
  unfold IndexJs.findExecuteCommandContainer, findExecuteCommandContainer.
  destruct (containers task) as [cs |].
  - now rewrite map_map.
  - now split.
Qed.

(** X16.  On a task list in which every task has a task-definition
    reference the two variants offer the same choices at the task
    prompt, and so select alike; [src/index.js] raises before the prompt
    as soon as one task has no reference at all. *)
Theorem taskChoices_variants (w : World) (tasks : list Task) (st : State) :
  (Forall referenced tasks ->
   IndexJs.taskChoices tasks = Resolved (taskChoices tasks) /\
   IndexJs.askTasks w tasks st = askTasks w tasks st) /\
  ((exists t, In t tasks /\ taskDefinitionArn t = None) ->
   exists e, IndexJs.askTasks w tasks st = (Rejected e, st)).
Proof.
  split.
  - intros H.
    assert (Hc : IndexJs.taskChoices tasks = Resolved (taskChoices tasks)).
    { induction H as [| t ts Ht _ IH]; [reflexivity |].
      rewrite taskChoices_cons. simpl. rewrite IH.
      unfold referenced, Js.truthy in Ht. unfold taskChoice.
      destruct (taskDefinitionArn t) as [arn |]; [| discriminate].
      destruct (arn =? EmptyString); [discriminate | reflexivity]. }
    split; [exact Hc |].
    unfold IndexJs.askTasks, askTasks. rewrite Hc. reflexivity.
  - intros [t [Hin Hnone]].
    assert (Hc : exists e, IndexJs.taskChoices tasks = Rejected e).
    { induction tasks as [| u us IH]; [contradiction |].
      simpl. destruct (taskDefinitionArn u) as [arn |] eqn:Eu.
      - destruct Hin as [-> | Hin]; [congruence |].
        destruct (IH Hin) as [e ->]. now exists e.
      - eexists. reflexivity. }
    destruct Hc as [e Hc]. exists e.
    unfold IndexJs.askTasks. rewrite Hc. reflexivity.
Qed.

Lemma taskChoices_variants_witness :
  Forall referenced [Scenario.replicaA; Scenario.mixed] /\
  IndexJs.taskChoices [Scenario.replicaA; Scenario.mixed]
  = Resolved (taskChoices [Scenario.replicaA; Scenario.mixed]).
Proof.
  assert (H : Forall referenced [Scenario.replicaA; Scenario.mixed])
    by (repeat constructor).
  split; [exact H |].
  apply (taskChoices_variants (Scenario.session []) [Scenario.replicaA; Scenario.mixed]
           Scenario.ambient).
  exact H.
Defined.

(** X17.  The two variants resolve the cluster alike for every hint but
    the empty string, present or absent, matching or not. *)
Theorem askCluster_variants (w : World) (clusterArns : list string) (st : State) :
  argv_cluster w <> Some EmptyString ->
  IndexJs.askCluster w clusterArns st = askCluster w clusterArns st.
Proof.
  intros H. unfold IndexJs.askCluster, askCluster.
  destruct (argv_cluster w) as [hint |]; [| reflexivity].
  destruct (hint =? EmptyString) eqn:E.
  - apply String.eqb_eq in E. subst. congruence.
  - reflexivity.
Qed.

Lemma askCluster_variants_witness :
  argv_cluster (Scenario.session []) <> Some EmptyString /\
  IndexJs.askCluster (Scenario.session []) [Scenario.prodArn] Scenario.ambient
  = askCluster (Scenario.session []) [Scenario.prodArn] Scenario.ambient.
Proof.
  split; [discriminate |].
  apply (askCluster_variants (Scenario.session []) [Scenario.prodArn] Scenario.ambient).
  discriminate.
Defined.

(** ** Container resolution, where it is sound *)

(** X18.  With exactly one eligible container its name is taken and
    nothing is asked; with two or more the container prompt is shown
    once, with the eligible names in the order of the task, and what the
    operator answers is taken. *)
Theorem resolveContainer_one_or_several (w : World) (task : Task) (st : State) :
  (length (findExecuteCommandContainer task) = 1 ->
   exists c,
     findExecuteCommandContainer task = [c] /\
     resolveContainer w task st = (Resolved (Some c), st)) /\
  (2 <= length (findExecuteCommandContainer task) ->
   resolveContainer w task st
   = (match prompt_list w "container" (findExecuteCommandContainer task) with
      | Resolved answer => Resolved (Some answer)
      | Rejected e => Rejected e
      end,
      logged st [EvPrompt "container" (findExecuteCommandContainer task)])).
Proof.
  destruct (findExecuteCommandContainer task) as [| c1 [| c2 rest]] eqn:E; simpl.
  - split; [discriminate | lia].
  - split; [| lia]. intros _. exists c1. split; [reflexivity |].
    now apply resolveContainer_single.
  - split; [discriminate |]. intros _.
    now apply resolveContainer_several.
Qed.

Lemma resolveContainer_one_or_several_witness :
  2 <= length (findExecuteCommandContainer Scenario.mixed) /\
  resolveContainer (Scenario.session [Scenario.mixed]) Scenario.mixed Scenario.ambient
  = (Resolved (Some "container"),
     logged Scenario.ambient [EvPrompt "container" ["container"; "app"]]).
Proof.
  assert (H : 2 <= length (findExecuteCommandContainer Scenario.mixed))
    by (vm_compute; lia).
  split; [exact H |].
  apply (resolveContainer_one_or_several
           (Scenario.session [Scenario.mixed]) Scenario.mixed Scenario.ambient).
  exact H.
Defined.
